(** * The assistant's web client: [frontend/src/api.jsx] and [frontend/src/App.jsx]

    A shallow embedding of the two source files of the React client and the
    properties of its HTTP layer, its conversation-id bookkeeping and its
    rendering of a planning result.

    Conventions of the embedding.
    - A JavaScript string is a [string]: the bytes of its UTF-8 text.
    - A JavaScript value is a [Js.Val]; numbers are restricted to integers,
      which print in decimal.
    - An [async] function is an [Async] computation: a tree whose nodes are
      the points where the function waits for [fetch].
    - React state is a record; a handler maps the state of the render it
      was created in, and the world around it, to the next world. *)

From Stdlib Require Import ZArith Lia Ascii DecimalString.
From stdpp Require Import gmap strings list.

Set Warnings "-register-all,-clear-no-such-hyp".

(** ** JavaScript values *)

Module Js.

Inductive Val : Type :=
| Undefined
| Null
| Bool (b : bool)
| Num (n : Z)
| Str (s : string)
| Arr (xs : list Val)
| Obj (fields : list (string * Val)).

(** [ToBoolean]: what [!v], [a || b], [a && b] and [if] look at. *)
Definition truthy (v : Val) : bool :=
  match v with
  | Undefined | Null => false
  | Bool b => b
  | Num n => negb (n =? 0)%Z
  | Str EmptyString => false
  | Str _ => true
  | Arr _ | Obj _ => true
  end.

(** [a || b] and [a && b] *)
Definition or (a b : Val) : Val := if truthy a then a else b.
Definition and (a b : Val) : Val := if truthy a then b else a.

Definition join (sep : string) (parts : list string) : string :=
  String.concat sep parts.

(** [String(v)], also the conversion of template literals, of header
    values and of [localStorage.setItem]. *)
Fixpoint ToString (v : Val) : string :=
  match v with
  | Undefined => "undefined"
  | Null => "null"
  | Bool true => "true"
  | Bool false => "false"
  | Num n => NilZero.string_of_int (Z.to_int n)
  | Str s => s
  | Arr xs =>
      join ","
        (List.map (fun x => match x with
                            | Undefined | Null => EmptyString
                            | _ => ToString x
                            end) xs)
  | Obj _ => "[object Object]"
  end.

(** [a === b].  Arrays and objects are compared by reference; every
    array or object this client compares was parsed out of a separate
    response, so two of them are never the same reference. *)
Definition strict_eq (a b : Val) : bool :=
  match a, b with
  | Undefined, Undefined => true
  | Null, Null => true
  | Bool x, Bool y => Bool.eqb x y
  | Num x, Num y => (x =? y)%Z
  | Str x, Str y => bool_decide (x = y)
  | _, _ => false
  end.

Definition isArray (v : Val) : bool :=
  match v with Arr _ => true | _ => false end.

(** Own property of a parsed JSON object. *)
Fixpoint field (k : string) (fields : list (string * Val)) : Val :=
  match fields with
  | [] => Undefined
  | (k', v) :: rest => if bool_decide (k' = k) then v else field k rest
  end.

(** Thrown values: all the exceptions of this program are error objects. *)
Record Exn : Type := { name : string; message : string }.

Inductive Result (A : Type) : Type :=
| Return (a : A)
| Throw (e : Exn).
Arguments Return {A} a.
Arguments Throw {A} e.

Definition TypeError (msg : string) : Exn :=
  {| name := "TypeError"; message := msg |}.

(** [new Error(v)] *)
Definition Error (v : Val) : Exn :=
  {| name := "Error";
     message := match v with Undefined => EmptyString | _ => ToString v end |}.

(** [v.k] for the property names this client reads ([error],
    [conversation_id], [tool_output], [emails], [id], ...), none of which
    is defined on a primitive or on an array. *)
Definition get (v : Val) (k : string) : Result Val :=
  match v with
  | Undefined =>
      Throw (TypeError ("Cannot read properties of undefined (reading '" +:+ k +:+ "')"))
  | Null =>
      Throw (TypeError ("Cannot read properties of null (reading '" +:+ k +:+ "')"))
  | Obj fields => Return (field k fields)
  | _ => Return Undefined
  end.

(** [v?.k] *)
Definition get_opt (v : Val) (k : string) : Result Val :=
  match v with
  | Undefined | Null => Return Undefined
  | _ => get v k
  end.

(** The document that [JSON.stringify(v)] writes, as a value: properties
    whose value is [undefined] are left out and an [undefined] array
    element is written [null]. *)
Fixpoint JSON_stringify (v : Val) : Val :=
  match v with
  | Arr xs =>
      Arr (List.map (fun x => match x with
                              | Undefined => Null
                              | _ => JSON_stringify x
                              end) xs)
  | Obj fields =>
      Obj (List.flat_map
             (fun kv => let '(k, x) := kv in
                        match x with
                        | Undefined => []
                        | _ => [(k, JSON_stringify x)]
                        end) fields)
  | _ => v
  end.

#[global] Instance result_ret : MRet Result := fun A a => Return a.
#[global] Instance result_bind : MBind Result :=
  fun A B f m => match m with Return a => f a | Throw e => Throw e end.

End Js.

Import Js.

(** ** HTTP through [fetch] *)

Record RequestInit : Type := {
  method : string;
  headers : list (string * Val);
  body : option Val
}.

(** [fetch(url)] with no second argument *)
Definition GET : RequestInit :=
  {| method := "GET"; headers := []; body := None |}.

(** A request as it leaves the client: header values are strings. *)
Record Request : Type := {
  rq_url : string;
  rq_method : string;
  rq_headers : list (string * string);
  rq_body : option Val
}.

(** A response: [json] is what [res.json()] settles to, the parsed body
    or the exception raised on a body that is not JSON. *)
Record Response : Type := {
  status : Z;
  statusText : string;
  json : Result Val
}.

(** [res.ok] *)
Definition ok (res : Response) : bool :=
  (200 <=? status res)%Z && (status res <=? 299)%Z.

(** An [async] function: finished, or waiting for the [fetch] of [rq] and
    continuing with what the promise settles to (a response, or the
    exception of a failed fetch). *)
Inductive Async (A : Type) : Type :=
| Done (r : Result A)
| Await (rq : Request) (k : Result Response -> Async A).
Arguments Done {A} r.
Arguments Await {A} rq k.

Fixpoint async_bind {A B : Type} (f : A -> Async B) (m : Async A) : Async B :=
  match m with
  | Done (Return a) => f a
  | Done (Throw e) => Done (Throw e)
  | Await rq k => Await rq (fun o => async_bind f (k o))
  end.

#[global] Instance async_mret : MRet Async := fun A a => Done (Return a).
#[global] Instance async_mbind : MBind Async := @async_bind.

Definition throw {A : Type} (e : Exn) : Async A := Done (Throw e).
Definition lift {A : Type} (r : Result A) : Async A := Done r.

Definition fetch (url : string) (init : RequestInit) : Async Response :=
  Await {| rq_url := url;
           rq_method := method init;
           rq_headers := List.map (fun h => (fst h, ToString (snd h))) (headers init);
           rq_body := body init |}
        (fun o => Done o).

(** The network: what the promise of a request settles to, given the
    requests that went out before it. *)
Definition Network : Type := list Request -> Request -> Result Response.

(** Running a computation against a network, recording the requests. *)
Fixpoint run {A : Type} (net : Network) (m : Async A) (log : list Request)
  : Result A * list Request :=
  match m with
  | Done r => (r, log)
  | Await rq k => run net (k (net log rq)) (log ++ [rq])
  end.

Definition header (h : string) (rq : Request) : option string :=
  snd <$> List.find (fun kv => bool_decide (fst kv = h)) (rq_headers rq).

(** ** [api.jsx] *)

Section Api.

(** [import.meta.env.VITE_API_BASE]: [Undefined] when not configured. *)
Variable VITE_API_BASE : Val.

Definition API_BASE : Val := or VITE_API_BASE (Str "http://localhost:8000").

Definition plan (user_input conversationId : Val) : Async Val :=
  res ← fetch (ToString API_BASE +:+ "/plan")
        {| method := "POST";
           headers := [("Content-Type", Str "application/json");
                       ("X-Conversation-Id", or conversationId (Str EmptyString))];
           body := Some (JSON_stringify (Obj [("user_input", user_input)])) |};
  data ← lift (json res);
  if negb (ok res)
  then error ← lift (get data "error");
       throw (Error (or error (Str (statusText res))))
  else mret data.

Definition listConversations : Async Val :=
  r ← fetch (ToString API_BASE +:+ "/conversations") GET;
  lift (json r).

Definition getConversation (cid : Val) : Async Val :=
  r ← fetch (ToString API_BASE +:+ "/conversations/" +:+ ToString cid) GET;
  lift (json r).

Definition deleteConversation (cid : Val) : Async Val :=
  r ← fetch (ToString API_BASE +:+ "/conversations/" +:+ ToString cid)
        {| method := "DELETE"; headers := []; body := None |};
  lift (json r).

End Api.

(** ** [String.prototype.trim] *)

(** ECMAScript's WhiteSpace and LineTerminator code points, in UTF-8. *)
Definition utf8 (bytes : list N) : list ascii := List.map Ascii.ascii_of_N bytes.

Definition WhiteSpace : list (list ascii) :=
  List.map utf8
    [ [9]; [11]; [12]; [32]; [194; 160]; [239; 187; 191];
      [225; 154; 128];
      [226; 128; 128]; [226; 128; 129]; [226; 128; 130]; [226; 128; 131];
      [226; 128; 132]; [226; 128; 133]; [226; 128; 134]; [226; 128; 135];
      [226; 128; 136]; [226; 128; 137]; [226; 128; 138];
      [226; 128; 175]; [226; 129; 159]; [227; 128; 128] ]%N.

Definition LineTerminator : list (list ascii) :=
  List.map utf8 [ [10]; [13]; [226; 128; 168]; [226; 128; 169] ]%N.

Definition is_space (w : list ascii) : bool :=
  bool_decide (w ∈ WhiteSpace ++ LineTerminator).

(** The bytes of a code point as they are met when the text is read from
    its end. *)
Definition dir (backwards : bool) (w : list ascii) : list ascii :=
  if backwards then List.rev w else w.

(** Removes the white space at the head of [s]; with [backwards], [s] is a
    reversed string and the encodings are read right to left. *)
Fixpoint strip (backwards : bool) (s : list ascii) : list ascii :=
  match s with
  | [] => []
  | a :: s1 =>
      if is_space [a] then strip backwards s1 else
      match s1 with
      | [] => s
      | b :: s2 =>
          if is_space (dir backwards [a; b]) then strip backwards s2 else
          match s2 with
          | [] => s
          | c :: s3 =>
              if is_space (dir backwards [a; b; c]) then strip backwards s3 else s
          end
      end
  end.

Definition trim (s : string) : string :=
  let front := strip false (String.list_ascii_of_string s) in
  String.string_of_list_ascii (List.rev (strip true (List.rev front))).

(** ** The page: state, storage and handlers of [App] *)

Record State : Type := {
  input : string;
  busy : bool;
  res : Val;
  err : string;
  showDebug : bool;
  convId : Val
}.

Definition setInput (v : string) (st : State) : State :=
  {| input := v; busy := busy st; res := res st; err := err st;
     showDebug := showDebug st; convId := convId st |}.
Definition setBusy (v : bool) (st : State) : State :=
  {| input := input st; busy := v; res := res st; err := err st;
     showDebug := showDebug st; convId := convId st |}.
Definition setRes (v : Val) (st : State) : State :=
  {| input := input st; busy := busy st; res := v; err := err st;
     showDebug := showDebug st; convId := convId st |}.
Definition setErr (v : string) (st : State) : State :=
  {| input := input st; busy := busy st; res := res st; err := v;
     showDebug := showDebug st; convId := convId st |}.
Definition setShowDebug (v : bool) (st : State) : State :=
  {| input := input st; busy := busy st; res := res st; err := err st;
     showDebug := v; convId := convId st |}.
Definition setConvId (v : Val) (st : State) : State :=
  {| input := input st; busy := busy st; res := res st; err := err st;
     showDebug := showDebug st; convId := v |}.

(** [localStorage] *)
Definition getItem (k : string) (ls : gmap string string) : Val :=
  match ls !! k with Some v => Str v | None => Null end.
Definition setItem (k : string) (v : Val) (ls : gmap string string)
  : gmap string string := <[k := ToString v]> ls.
Definition removeItem (k : string) (ls : gmap string string)
  : gmap string string := delete k ls.

(** An [askPlan] call that is waiting for its response: the [convId] of
    the render whose handler was invoked, and the rest of [plan]. *)
Record Suspended : Type := {
  captured : Val;
  resume : Result Response -> Async Val
}.

(** The page and what it acts on: its state, the storage (the page's
    own: no other tab writes to it), the requests sent so far and the
    calls that wait for a response. *)
Record World : Type := {
  ui : State;
  localStorage : gmap string string;
  requests : list Request;
  pending : list Suspended
}.

Definition with_ui (f : State -> State) (w : World) : World :=
  {| ui := f (ui w); localStorage := localStorage w;
     requests := requests w; pending := pending w |}.
Definition with_storage (f : gmap string string -> gmap string string) (w : World)
  : World :=
  {| ui := ui w; localStorage := f (localStorage w);
     requests := requests w; pending := pending w |}.

(** What the two sources of identifiers give when asked:
    [crypto.randomUUID()], if the browser has it, and
    [Math.random().toString(36).slice(2)]. *)
Record Entropy : Type := {
  randomUUID : option string;
  random36 : string
}.

(** [(crypto?.randomUUID && crypto.randomUUID()) || Math.random().toString(36).slice(2)] *)
Definition freshId (e : Entropy) : Val :=
  or (match randomUUID e with
      | None => Undefined
      | Some u => Str u
      end)
     (Str (random36 e)).

(** The first render: [useState] initial values. *)
Definition initial (ls : gmap string string) : World :=
  {| ui := {| input := EmptyString; busy := false; res := Null;
              err := EmptyString; showDebug := false;
              convId := or (getItem "conv_id" ls) Null |};
     localStorage := ls; requests := []; pending := [] |}.

(** The [useEffect(..., [])] that runs after the first render. *)
Definition mountEffect (e : Entropy) (w : World) : World :=
  let id := getItem "conv_id" (localStorage w) in
  if negb (truthy id) then
    let id := freshId e in
    with_ui (setConvId id) (with_storage (setItem "conv_id" id) w)
  else with_ui (setConvId id) w.

Definition resetConversation (e : Entropy) (w : World) : World :=
  let id := freshId e in
  with_ui (setRes Null)
    (with_ui (setConvId id) (with_storage (setItem "conv_id" id) w)).

Definition newConversation (w : World) : World :=
  with_ui (setInput EmptyString)
    (with_ui (setRes Null)
       (with_ui (setConvId Null) (with_storage (removeItem "conv_id") w))).

(** [String(e.message || e)] for an error object [e] *)
Definition errorText (e : Exn) : string :=
  match message e with
  | EmptyString => name e
  | m => m
  end.

(** ** What a component returns *)

(** A React element tree.  [Expr v] is a child written [{v}]: React shows
    a string or a number and shows nothing for [null], [undefined] and the
    booleans.  Event handlers and inline styles are left out of [props]. *)
Inductive VNode : Type :=
| Elem (tag : string) (props : list (string * Val)) (children : list VNode)
| Text (s : string)
| Expr (v : Val).

Definition className (c : string) : string * Val := ("className", Str c).

(** [cond && node] *)
Definition when (cond : Val) (node : VNode) : VNode :=
  if truthy cond then node else Expr cond.

Section Page.

Variable VITE_API_BASE : Val.

(** [new Date(v).toLocaleString()], which depends on the browser's locale
    and time zone. *)
Variable Date_toLocaleString : Val -> string.

(** [JSON.stringify(v, null, 2)]: the indented JSON text of [v], or
    [undefined]. *)
Variable JSON_pretty : Val -> Val.

Definition Section_ (title : string) (children : list VNode) : VNode :=
  Elem "div" [className "section"]
    [ Elem "h3" [] [Expr (Str title)];
      Elem "div" [className "surface"] children ].

(** [EmailsList], on the elements of the array it is given: [App] renders
    it under [Array.isArray(emails)] only. *)
Definition EmailsList (emails : list Val) : Result VNode :=
  if negb (truthy (Num (Z.of_nat (length emails)))) then
    mret (Elem "div" [className "muted"] [Text "Sonuç yok."])
  else
    items ← mapM (fun m =>
               id ← get m "id";
               subject ← get m "subject";
               from ← get m "from";
               date ← get m "date";
               snippet ← get m "snippet";
               mret (Elem "li" [("key", id); className "item"]
                       [ Elem "div" [className "item-title"]
                           [Expr (or subject (Str "(no subject)"))];
                         Elem "div" [className "item-sub"]
                           [ Expr (or from (Str "unknown")); Text " • ";
                             Expr (or date (Str EmptyString)) ];
                         when snippet
                           (Elem "div" [className "item-snippet"] [Expr snippet]) ]))
             emails;
    mret (Elem "ul" [className "list"] items).

(** [SlotsTable], on the elements of its array, each with its index. *)
Definition SlotsTable (slots : list Val) : Result VNode :=
  if negb (truthy (Num (Z.of_nat (length slots)))) then
    mret (Elem "div" [className "muted"] [Text "Uygun blok bulunamadı."])
  else
    chips ← mapM (fun si =>
               let '(i, s) := si in
               start ← get s "start";
               end_ ← get s "end";
               mret (Elem "div" [("key", Num (Z.of_nat i)); className "chip"]
                       [ Elem "span" [] [Expr (Str (Date_toLocaleString start))];
                         Elem "span" [] [Text " → "];
                         Elem "span" [] [Expr (Str (Date_toLocaleString end_))] ]))
             (imap (fun i s => (i, s)) slots);
    mret (Elem "div" [className "grid"] chips).

Definition EventCard (created : Val) : Result VNode :=
  if negb (truthy created) then mret (Expr Null) else
  summary ← get created "summary";
  start ← get created "start";
  end_ ← get created "end";
  htmlLink ← get created "htmlLink";
  mret (Elem "div" [className "event-card"]
          [ Elem "div" [className "item-title"] [Expr (or summary (Str "Etkinlik"))];
            Elem "div" [className "item-sub"]
              [ Expr (Str (Date_toLocaleString start)); Text " – ";
                Expr (Str (Date_toLocaleString end_)) ];
            when htmlLink
              (Elem "a" [ className "link"; ("href", htmlLink);
                          ("target", Str "_blank"); ("rel", Str "noreferrer") ]
                 [Text "Google Calendar’da aç"]) ]).

(** The card shown for a result, [res && (...)]. *)
Definition resultCard (st : State) (emails slots created : Val) : Result VNode :=
  let res := res st in
  if negb (truthy res) then mret (Expr res) else
  final_answer ← get res "final_answer";
  emailsSection ←
    match emails with
    | Arr xs => ul ← EmailsList xs;
                mret (Section_ "E-postalar (önemli)" [ul])
    | _ => mret (Expr (Bool false))
    end;
  slotsSection ←
    match slots with
    | Arr xs => table ← SlotsTable xs;
                mret (Section_ "Uygun zaman blokları" [table])
    | _ => mret (Expr (Bool false))
    end;
  createdSection ←
    (if truthy created
     then card ← EventCard created;
          mret (Section_ "Oluşturulan etkinlik" [card])
     else mret (Expr created));
  debug ←
    (if showDebug st then
       plan_text ← get res "plan_text";
       tool_call ← get res "tool_call";
       tool_output ← get res "tool_output";
       mret (Elem "React.Fragment" []
               [ Section_ "plan_text" [Elem "pre" [] [Expr plan_text]];
                 Section_ "tool_call" [Elem "pre" [] [Expr (JSON_pretty tool_call)]];
                 when tool_output
                   (Section_ "tool_output"
                      [Elem "pre" [] [Expr (JSON_pretty tool_output)]]) ])
     else mret (Expr (Bool false)));
  mret (Elem "div" [className "card mt"]
          [ Section_ "Özet" [Elem "div" [className "final"]
                               [Expr (or final_answer (Str "—"))]];
            emailsSection; slotsSection; createdSection; debug ]).

(** The body of [App] for the state [st]: what the page shows. *)
Definition App (st : State) : Result VNode :=
  tool_output ← get_opt (res st) "tool_output";
  let toolOut := or tool_output (Obj []) in
  emails ← get toolOut "emails";
  slots ← get toolOut "free_slots";
  created ← get toolOut "created";
  card ← resultCard st emails slots created;
  mret (Elem "div" [className "page"]
    [ Elem "div" [className "shell"]
        [ Elem "h1" [] [Text "Agentic Assistant"];
          Elem "div" [className "card"]
            [ Elem "div" [className "row"]
                [ Elem "input"
                    [ className "input"; ("value", Str (input st));
                      ("placeholder", Str "Örn: Son 7 gündeki önemli e-postaları özetle • Yarın 15:00 toplantı ekle • Önümüzdeki hafta 2 saatlik boş blokları öner") ]
                    [];
                  Elem "button" [className "btn"; ("disabled", Bool (busy st))]
                    [Expr (Str (if busy st then "Çalışıyor…" else "Gönder"))] ];
              Elem "div" [className "row mt"]
                [ Elem "label" [className "toggle"]
                    [ Elem "input" [("type", Str "checkbox");
                                    ("checked", Bool (showDebug st))] [];
                      Elem "span" [] [Text "Detayları göster (debug)"] ];
                  Elem "button" [className "btn ghost"] [Text "Yeni konuşma"] ];
              Elem "div" [className "small mt muted"]
                [Text "convId: "; Expr (convId st)];
              when (Str (err st))
                (Elem "div" [className "small mt"] [Text "Hata: "; Expr (Str (err st))]) ];
          card;
          when (Bool (negb (truthy (res st))))
            (Elem "div" [className "small mt"]
               [Text "Henüz sonuç yok. Üstte bir örnek istek gönder."]) ] ]).

(** The rest of [askPlan] once [await plan(...)] has settled to [r]: the
    remainder of the [try] block, [catch] and [finally].  [convId0] is the
    [convId] of the render the handler belongs to. *)
Definition askPlan_settle (convId0 : Val) (r : Result Val) (w : World) : World :=
  let tried : Result World :=
    data ← r;
    conversation_id ← get data "conversation_id";
    let w1 :=
      if truthy conversation_id && negb (strict_eq conversation_id convId0)
      then with_ui (setConvId conversation_id)
             (with_storage (setItem "conv_id" conversation_id) w)
      else w in
    mret (with_ui (setRes data) w1) in
  let caught :=
    match tried with
    | Return w' => w'
    | Throw e => with_ui (setErr (errorText e)) w
    end in
  with_ui (setBusy false) caught.

(** Runs the awaited call up to its next [fetch], which is sent and left
    pending, or to its end. *)
Definition advance (convId0 : Val) (m : Async Val) (w : World) : World :=
  match m with
  | Done r => askPlan_settle convId0 r w
  | Await rq k =>
      {| ui := ui w; localStorage := localStorage w;
         requests := requests w ++ [rq];
         pending := pending w ++ [{| captured := convId0; resume := k |}] |}
  end.

Definition askPlan (w : World) : World :=
  let st := ui w in
  if negb (truthy (Str (trim (input st)))) then w else
  let w1 := with_ui (setRes Null)
              (with_ui (setErr EmptyString) (with_ui (setBusy true) w)) in
  advance (convId st) (plan VITE_API_BASE (Str (trim (input st))) (convId st)) w1.

(** The [i]-th pending call receives [o] from the network. *)
Definition settle (i : nat) (o : Result Response) (w : World) : World :=
  match pending w !! i with
  | None => w
  | Some s =>
      advance (captured s) (resume s o)
        {| ui := ui w; localStorage := localStorage w;
           requests := requests w; pending := delete i (pending w) |}
  end.

(** What can happen to the page.  The send button is [disabled={busy}];
    [newConversation] is defined by [App] but bound to no element. *)
Inductive Event : Type :=
| Mounted (e : Entropy)
| Typed (v : string)
| DebugToggled (checked : bool)
| SendClicked
| ResetClicked (e : Entropy)
| NewConversation
| Settled (i : nat) (o : Result Response).

Definition step (w : World) (ev : Event) : World :=
  match ev with
  | Mounted e => mountEffect e w
  | Typed v => with_ui (setInput v) w
  | DebugToggled checked => with_ui (setShowDebug checked) w
  | SendClicked => if busy (ui w) then w else askPlan w
  | ResetClicked e => resetConversation e w
  | NewConversation => newConversation w
  | Settled i o => settle i o w
  end.

Definition play (w : World) (evs : list Event) : World :=
  fold_left step evs w.

End Page.

(** ** Vocabulary of the statements *)

Definition raises {A : Type} (r : Result A) : Prop := exists e, r = Throw e.

(** The network that answers every request with [o]. *)
Definition always (o : Result Response) : Network := fun _ _ => o.

(** What [plan] settles to when its [fetch] settles to [o]; it depends on
    neither argument of [plan] nor on the base address. *)
Definition plan_settled (o : Result Response) : Result Val :=
  fst (run (always o) (plan Undefined Undefined Undefined) []).

(** The request [plan(user_input, conversationId)] is specified to send,
    for the identifier [id] carried in the header. *)
Definition plan_post (base : Val) (user_input id : string) : Request :=
  {| rq_url := ToString base +:+ "/plan";
     rq_method := "POST";
     rq_headers := [("Content-Type", "application/json"); ("X-Conversation-Id", id)];
     rq_body := Some (Obj [("user_input", Str user_input)]) |}.

(** A string begins, or ends, with a white space or line terminator. *)
Definition leading_space (s : string) : Prop :=
  exists w r, is_space w = true /\ String.list_ascii_of_string s = w ++ r.
Definition trailing_space (s : string) : Prop :=
  exists w r, is_space w = true /\ String.list_ascii_of_string s = r ++ w.

(** Every pending call is a call of [plan] waiting for its response. *)
Definition well_formed (w : World) : Prop :=
  Forall (fun s => forall o, resume s o = Done (plan_settled o)) (pending w).

(** The [conversation_id] of the envelope that [plan] returns when the
    network gives [o]; [Undefined] when there is none. *)
Definition returned_id (o : Result Response) : Val :=
  match plan_settled o with
  | Return data =>
      match get data "conversation_id" with
      | Return id => id
      | Throw _ => Undefined
      end
  | Throw _ => Undefined
  end.

(** The identifier in memory and the stored one agree: the same string,
    or none on either side. *)
Definition agree (w : World) : Prop :=
  match convId (ui w) with
  | Str id => localStorage w !! "conv_id" = Some id
  | Null => localStorage w !! "conv_id" = None
  | _ => False
  end.

(** The same, for an identifier of any type: the stored entry is its
    text. *)
Definition agree_as_text (w : World) : Prop :=
  match convId (ui w) with
  | Null => localStorage w !! "conv_id" = None
  | id => localStorage w !! "conv_id" = Some (ToString id)
  end.

(** The server keeps to its contract on identifiers: a response carries a
    string as [conversation_id], or none. *)
Definition string_or_none (id : Val) : bool :=
  match id with
  | Str _ => true
  | _ => negb (truthy id)
  end.

Definition string_id (ev : Event) : bool :=
  match ev with
  | Settled _ o => string_or_none (returned_id o)
  | _ => true
  end.

(** An event that neither resets the conversation nor brings an
    identifier other than [y] from the server. *)
Definition keeps (y : string) (ev : Event) : bool :=
  match ev with
  | ResetClicked _ | NewConversation => false
  | Settled _ o =>
      match returned_id o with
      | Str z => bool_decide (z = y) || bool_decide (z = EmptyString)
      | id => negb (truthy id)
      end
  | _ => true
  end.

(** The children of the elements of a tree that [p] selects by tag and
    props, in document order. *)
Fixpoint select (p : string -> list (string * Val) -> bool) (n : VNode)
  : list (list VNode) :=
  match n with
  | Elem tag props children =>
      (if p tag props then [children] else []) ++ flat_map (select p) children
  | _ => []
  end.

Definition is_h3 (tag : string) (props : list (string * Val)) : bool :=
  bool_decide (tag = "h3").

Definition has_class (c : string) (tag : string) (props : list (string * Val)) : bool :=
  existsb (fun kv => bool_decide (fst kv = "className") &&
                     match snd kv with
                     | Str c' => bool_decide (c' = c)
                     | _ => false
                     end) props.

(** The headings of the sections a tree shows. *)
Definition headings (n : VNode) : list (list VNode) := select is_h3 n.

(** The children of an [h3] that shows the title [t]. *)
Definition heading (t : string) : list VNode := [Expr (Str t)].

(** What a selection finds in the heading of a section titled [t]. *)
Definition title_of (p : string -> list (string * Val) -> bool) (t : string)
  : list (list VNode) := if p "h3" [] then [heading t] else [].

(** [v?.k] where nothing is thrown *)
Definition prop (v : Val) (k : string) : Val :=
  match get_opt v k with
  | Return x => x
  | Throw _ => Undefined
  end.

(** [(res?.tool_output || {}).k] *)
Definition payload (st : State) (k : string) : Val :=
  prop (or (prop (res st) "tool_output") (Obj [])) k.

(** The sections of the page for a state, as the amended C5 lists them. *)
Definition shown_sections (st : State) : list string :=
  if truthy (res st) then
    ["Özet"]
    ++ (if isArray (payload st "emails") then ["E-postalar (önemli)"] else [])
    ++ (if isArray (payload st "free_slots") then ["Uygun zaman blokları"] else [])
    ++ (if truthy (payload st "created") then ["Oluşturulan etkinlik"] else [])
    ++ (if showDebug st then
          ["plan_text"; "tool_call"]
          ++ (if truthy (prop (res st) "tool_output") then ["tool_output"] else [])
        else [])
  else [].

(** The payload shapes in the words of C5. *)
Definition record_of (keys : list string) (v : Val) : bool :=
  match v with
  | Obj fields => forallb (fun k => bool_decide (k ∈ fields.*1)) keys
  | _ => false
  end.

Definition sequence_of (keys : list string) (v : Val) : bool :=
  match v with
  | Arr xs => forallb (record_of keys) xs
  | _ => false
  end.

Definition email_search_shape : Val -> bool :=
  sequence_of ["id"; "subject"; "from"; "date"; "snippet"].
Definition free_slot_shape : Val -> bool := sequence_of ["start"; "end"].
Definition event_shape : Val -> bool :=
  record_of ["summary"; "start"; "end"; "htmlLink"].

Definition exactly_one_shape (v : Val) : bool :=
  match email_search_shape v, free_slot_shape v, event_shape v with
  | true, false, false | false, true, false | false, false, true => true
  | _, _, _ => false
  end.

(** The two selections made in the statements: headings, and the element
    that shows the final answer. *)
Definition probe (p : string -> list (string * Val) -> bool) : Prop :=
  p = is_h3 \/ p = has_class "final".

(** ** Vocabulary of the further properties *)

(** [null] and [undefined], the values whose properties cannot be read. *)
Definition nullish (v : Val) : bool :=
  match v with
  | Undefined | Null => true
  | _ => false
  end.

(** The elements of an array, none for any other value. *)
Definition elements (v : Val) : list Val :=
  match v with
  | Arr xs => xs
  | _ => []
  end.

(** While a call is awaited there is exactly one pending call, made by
    the last request sent, and the page shows neither a result nor an
    error; otherwise nothing is pending. *)
Definition single_flight (w : World) : Prop :=
  if busy (ui w) then
    exists s earlier rq,
      pending w = [s] /\ requests w = earlier ++ [rq] /\
      header "X-Conversation-Id" rq
      = Some (ToString (or (captured s) (Str EmptyString))) /\
      res (ui w) = Null /\ err (ui w) = EmptyString
  else pending w = [].

(** An error and a result are not on the page together. *)
Definition one_outcome (w : World) : Prop :=
  err (ui w) <> EmptyString -> res (ui w) = Null.

(** What every request of the page looks like. *)
Definition plan_request (base : Val) (rq : Request) : Prop :=
  rq_method rq = "POST" /\
  rq_url rq = ToString base +:+ "/plan" /\
  header "Content-Type" rq = Some "application/json" /\
  exists user_input,
    user_input <> EmptyString /\
    rq_body rq = Some (Obj [("user_input", Str user_input)]).

(** The page loaded again over the storage that [w] leaves behind. *)
Definition reload (e : Entropy) (w : World) : World :=
  mountEffect e (initial (localStorage w)).

(** The children of the elements whose class is [small mt], in document
    order: the error line and the hint that no result is there yet. *)
Definition messages (n : VNode) : list (list VNode) :=
  select (has_class "small mt") n.

Definition error_line (text : string) : list VNode :=
  [Text "Hata: "; Expr (Str text)].

Definition hint : list VNode :=
  [Text "Henüz sonuç yok. Üstte bir örnek istek gönder."].

(** Selection by tag. *)
Definition has_tag (t : string) (tag : string) (props : list (string * Val)) : bool :=
  bool_decide (tag = t).

(** The value of a prop of an element, of the first element if several
    are given. *)
Definition prop_of (k : string) (n : VNode) : Val :=
  match n with
  | Elem _ props _ => field k props
  | _ => Undefined
  end.

(** The values of the prop [k] of the elements with tag [t], in document
    order. *)
Fixpoint attribute (t k : string) (n : VNode) : list Val :=
  match n with
  | Elem tag props children =>
      (if bool_decide (tag = t) then [field k props] else [])
      ++ flat_map (attribute t k) children
  | _ => []
  end.


(** ** Sample data *)

Module Sample.

Definition entropy : Entropy :=
  {| randomUUID := Some "6f1c2e0a-client"; random36 := "k3x9q" |}.

Definition localeString (v : Val) : string := ToString v.
Definition pretty (v : Val) : Val := Str (ToString v).

Definition email : Val :=
  Obj [ ("id", Str "m1"); ("subject", Str "Toplantı"); ("from", Str "ayse@example.com");
        ("date", Str "2025-08-20"); ("snippet", Str "Yarın 15:00") ].

(** An envelope as the server sends it for an e-mail search. *)
Definition envelope : Val :=
  Obj [ ("conversation_id", Str "srv-9");
        ("plan_text", Str "search_emails");
        ("tool_call", Obj [ ("name", Str "search_emails");
                            ("arguments", Obj [("days", Num 7)]) ]);
        ("tool_output", Obj [("emails", Arr [email])]);
        ("final_answer", Str "1 e-posta bulundu.") ].

(** An envelope whose [tool_output] is the bare sequence of records. *)
Definition bare_envelope : Val :=
  Obj [ ("conversation_id", Str "srv-9");
        ("tool_output", Arr [email]);
        ("final_answer", Str "1 e-posta bulundu.") ].

Definition no_answer : Val :=
  Obj [ ("conversation_id", Str "srv-9"); ("final_answer", Null) ].

Definition response (code : Z) (text : string) (parsed : Result Val) : Response :=
  {| status := code; statusText := text; json := parsed |}.

Definition success : Response := response 200 "OK" (Return envelope).
Definition unavailable : Response :=
  response 503 "Service Unavailable"
    (Return (Obj [("error", Str "planner unavailable")])).
Definition not_found : Response :=
  response 404 "Not Found" (Return (Obj [("detail", Str "Not Found")])).
Definition empty_body : Response :=
  response 200 "OK"
    (Throw {| name := "SyntaxError"; message := "Unexpected end of JSON input" |}).

Definition showing (data : Val) : State :=
  {| input := EmptyString; busy := false; res := data; err := EmptyString;
     showDebug := false; convId := Str "srv-9" |}.

(** A mounted page on which a request has been typed and sent. *)
Definition waiting : list Event :=
  [Mounted entropy; Typed " son 7 gün "; SendClicked].

Definition later : list Event :=
  [Typed "yarın 15:00 toplantı ekle"; SendClicked; Settled 0 (Return success)].

Definition session : list Event :=
  [ Typed " son 7 gün "; SendClicked; Settled 0 (Return success);
    ResetClicked entropy; NewConversation; Typed "x"; SendClicked;
    Settled 0 (Return unavailable) ].

Definition blank : World :=
  {| ui := {| input := "   "; busy := false; res := Null; err := EmptyString;
              showDebug := false; convId := Str "srv-9" |};
     localStorage := {["conv_id" := "srv-9"]}; requests := []; pending := [] |}.

End Sample.

(** ** Further sample data *)

Module Scenario.

(** A browser without [crypto.randomUUID]. *)
Definition old_browser : Entropy :=
  {| randomUUID := None; random36 := "k3x9q" |}.

Definition bad_gateway : Response :=
  Sample.response 502 "Bad Gateway" (Return (Str "upstream down")).
Definition null_error : Response :=
  Sample.response 500 "Internal Server Error" (Return Null).
Definition null_body : Response := Sample.response 200 "OK" (Return Null).
Definition silent_error : Response := Sample.response 500 EmptyString (Return (Obj [])).

Definition offline : Exn := {| name := "TypeError"; message := "Failed to fetch" |}.

(** The server answers with the identifier the client sent. *)
Definition echo : Response :=
  Sample.response 200 "OK"
    (Return (Obj [ ("conversation_id", Str "6f1c2e0a-client");
                   ("final_answer", Str "Tamam.") ])).

(** A page on which a request has been typed. *)
Definition typed : list Event := [Mounted Sample.entropy; Typed " son 7 gün "].

Definition bare_email : Val := Obj [("id", Str "m2")].

Definition slot (start end_ : string) : Val :=
  Obj [("start", Str start); ("end", Str end_)].

Definition slots : list Val :=
  [ slot "2025-08-21T09:00" "2025-08-21T11:00";
    slot "2025-08-22T14:00" "2025-08-22T16:00" ].

Definition event : Val :=
  Obj [ ("summary", Str "Toplantı"); ("start", Str "2025-08-21T15:00");
        ("end", Str "2025-08-21T16:00");
        ("htmlLink", Str "https://calendar.google.com/event?eid=1") ].

(** An envelope whose list of e-mails has a hole. *)
Definition holed : Val :=
  Obj [ ("conversation_id", Str "srv-9");
        ("tool_output", Obj [("emails", Arr [Sample.email; Null])]);
        ("final_answer", Str "2 e-posta bulundu.") ].

End Scenario.

(** ** The orchestrator behind [/plan]

    The server that answers [/plan] is not among the source files.  The
    statements about it are made on the model below, which follows the
    specification's description of the Turn Orchestrator (its data model,
    its state machine and its concurrency model).  Creation timestamps are
    left out of [Turn]. *)

Module Orchestrator.

(** Modelled from the spec: ToolCall, a tool name and an argument mapping
    (the Tool Registry and its schemas are behind [Dispatcher_execute]). *)
Record ToolCall : Type := { tool_name : string; tool_arguments : Val }.

(** Modelled from the spec: ToolResult, the tagged union of a success with
    its payload and a failure with its kind and message. *)
Inductive ToolResult : Type :=
| Success (payload : Val)
| Failure (kind message : string).

(** Modelled from the spec: the Planner's Decision, one tool call or a
    direct answer. *)
Inductive Decision : Type :=
| UseTool (call : ToolCall)
| DirectAnswer (text : string).

(** Modelled from the spec: what [decide] gives, a decision with the
    planner's rationale, or a PlannerError of some kind. *)
Inductive Planned : Type :=
| Decided (rationale : string) (d : Decision)
| PlannerError (kind : string).

(** Modelled from the spec: Turn, the input text, the resulting tool call
    and tool result (absent when the planner answers directly) and the
    final answer (absent for an attempt that ended in a planner error). *)
Record Turn : Type := {
  turn_input : string;
  turn_call : option ToolCall;
  turn_result : option ToolResult;
  turn_answer : option string
}.

(** Modelled from the spec: PlanEnvelope, the orchestrator's output, with
    the warning flag of a turn that could not be persisted. *)
Record PlanEnvelope : Type := {
  conversation_id : string;
  plan_text : string;
  tool_call : option ToolCall;
  tool_output : option ToolResult;
  final_answer : string;
  warning : bool
}.

(** Modelled from the spec: the states of the Turn Orchestrator, with the
    data a pass has computed when it is in each of them. *)
Inductive Phase : Type :=
| Received
| Planning
| Dispatching (rationale : string) (call : ToolCall)
| Composing (rationale : string) (d : Decision) (result : option ToolResult)
| Persisted (envelope : PlanEnvelope)
| Done (envelope : PlanEnvelope)
| Errored (error : string).

(** Modelled from the spec: one unit of work, an inbound request with the
    identifier and the input it came with, the state it is in, the
    conversation it was resolved to, the history it loaded and the turn it
    appended. *)
Record Call : Type := {
  given : string;
  user_input : string;
  phase : Phase;
  conversation : option string;
  loaded : option (list Turn);
  appended : option Turn
}.

(** Modelled from the spec: the Conversation Store, an ordered log of
    turns per conversation identifier; the per-conversation
    mutual-exclusion scopes that are held; the units of work. *)
Record System : Type := {
  store : gmap string (list Turn);
  held : gset string;
  calls : list Call
}.

(** Modelled from the spec: what happens in the system, a request comes
    in, or the scheduler lets the unit of work [i] take its next step,
    during which the store accepts an append or fails. *)
Inductive Event : Type :=
| Arrive (id : string) (text : string)
| Run (i : nat) (persist_ok : bool).

(** Modelled from the spec: [load(conversationId)], the ordered turns of a
    conversation. *)
Definition history (st : gmap string (list Turn)) (k : string) : list Turn :=
  default [] (st !! k).

(** Modelled from the spec: [append(conversationId, turn)]. *)
Definition append (k : string) (t : Turn) (st : gmap string (list Turn))
  : gmap string (list Turn) := <[k := history st k ++ [t]]> st.

(** Modelled from the spec: the contracts the orchestrator sequences,
    [decide(history, input)], [execute(ToolCall)] and
    [compose(input, Decision, ToolResult|None)], and the minting of an
    identifier for a fresh conversation. *)
Record Components : Type := {
  Planner_decide : list Turn -> string -> Planned;
  Dispatcher_execute : ToolCall -> ToolResult;
  Composer_compose : string -> Decision -> option ToolResult -> string;
  mint : gmap string (list Turn) -> string
}.

(** Modelled from the spec: the resolution of the conversation identifier
    at [Received], a missing or unknown identifier starts a fresh
    conversation under a minted identifier. *)
Definition resolve (core : Components) (st : gmap string (list Turn)) (id : string)
  : string :=
  if bool_decide (id ≠ EmptyString) && bool_decide (id ∈ dom st) then id
  else mint core st.

(** Modelled from the spec: a transition that changes the state only. *)
Definition moved (ph : Phase) (c : Call) : Call :=
  {| given := given c; user_input := user_input c; phase := ph;
     conversation := conversation c; loaded := loaded c; appended := appended c |}.

(** Modelled from the spec: the end of a pass, the turn is appended to
    the store unless the store fails, and the scope of the conversation is
    released. *)
Definition finish (ph : Phase) (persist_ok : bool) (k : string) (t : Turn)
    (c : Call) (sys : System) : Call * gmap string (list Turn) * gset string :=
  ({| given := given c; user_input := user_input c; phase := ph;
      conversation := conversation c; loaded := loaded c;
      appended := if persist_ok then Some t else None |},
   if persist_ok then append k t (store sys) else store sys,
   held sys ∖ {[k]}).

(** Modelled from the spec: the next step of a unit of work, by the state
    it is in.  [Received] rejects a blank input, and otherwise resolves the
    conversation, acquires its scope (waiting, [None], while another turn
    holds it) and loads the history; [Planning] asks the Planner, and on a
    PlannerError appends the attempt and ends in [Errored]; [Dispatching]
    executes the tool call; [Composing] composes the answer and persists the
    turn; [Persisted] returns the envelope. *)
Definition run_call (core : Components) (persist_ok : bool) (c : Call) (sys : System)
  : option (Call * gmap string (list Turn) * gset string) :=
  match phase c with
  | Received =>
      if bool_decide (trim (user_input c) = EmptyString) then
        Some (moved (Errored "InputError") c, store sys, held sys)
      else
        let k := resolve core (store sys) (given c) in
        if bool_decide (k ∈ held sys) then None else
        let h := history (store sys) k in
        Some ({| given := given c; user_input := user_input c; phase := Planning;
                 conversation := Some k; loaded := Some h; appended := None |},
              <[k := h]> (store sys), {[k]} ∪ held sys)
  | Planning =>
      match conversation c, loaded c with
      | Some k, Some h =>
          match Planner_decide core h (user_input c) with
          | Decided rationale (UseTool call) =>
              Some (moved (Dispatching rationale call) c, store sys, held sys)
          | Decided rationale (DirectAnswer text) =>
              Some (moved (Composing rationale (DirectAnswer text) None) c,
                    store sys, held sys)
          | PlannerError kind =>
              Some (finish (Errored kind) persist_ok k
                      {| turn_input := user_input c; turn_call := None;
                         turn_result := None; turn_answer := None |} c sys)
          end
      | _, _ => None
      end
  | Dispatching rationale call =>
      Some (moved (Composing rationale (UseTool call)
                     (Some (Dispatcher_execute core call))) c,
            store sys, held sys)
  | Composing rationale d result =>
      match conversation c with
      | Some k =>
          let answer := Composer_compose core (user_input c) d result in
          let call := match d with UseTool call => Some call | _ => None end in
          Some (finish
                  (Persisted {| conversation_id := k; plan_text := rationale;
                                tool_call := call; tool_output := result;
                                final_answer := answer;
                                warning := negb persist_ok |})
                  persist_ok k
                  {| turn_input := user_input c; turn_call := call;
                     turn_result := result; turn_answer := Some answer |} c sys)
      | None => None
      end
  | Persisted envelope => Some (moved (Done envelope) c, store sys, held sys)
  | Done _ | Errored _ => None
  end.

(** Modelled from the spec: one event of the system. *)
Definition step (core : Components) (sys : System) (ev : Event) : System :=
  match ev with
  | Arrive id text =>
      {| store := store sys; held := held sys;
         calls := calls sys ++
           [{| given := id; user_input := text; phase := Received;
               conversation := None; loaded := None; appended := None |}] |}
  | Run i persist_ok =>
      match calls sys !! i with
      | None => sys
      | Some c =>
          match run_call core persist_ok c sys with
          | None => sys
          | Some (c', st', held') =>
              {| store := st'; held := held'; calls := <[i := c']> (calls sys) |}
          end
      end
  end.

(** Modelled from the spec: a run of the system, any interleaving of
    arrivals and steps. *)
Definition exec (core : Components) (sys : System) (evs : list Event) : System :=
  fold_left (step core) evs sys.

(** Modelled from the spec: the system at rest over a store, no request
    in it and no scope held. *)
Definition start (st : gmap string (list Turn)) : System :=
  {| store := st; held := ∅; calls := [] |}.

(** A call that holds its conversation, and a call that has let go of it. *)
Definition critical (ph : Phase) : bool :=
  match ph with
  | Planning | Dispatching _ _ | Composing _ _ _ => true
  | _ => false
  end.
Definition finished (ph : Phase) : bool :=
  match ph with
  | Persisted _ | Done _ | Errored _ => true
  | _ => false
  end.

(** The turns a call has appended: one, or none. *)
Definition written (c : Call) : list Turn := option_list (appended c).

(** Any two calls that loaded the history of one conversation are ordered:
    one of them had finished, and the other loaded a history that begins
    with what the first loaded followed by the turn the first appended. *)
Definition serialized (sys : System) : Prop :=
  forall i j ci cj k hi hj,
    i <> j -> calls sys !! i = Some ci -> calls sys !! j = Some cj ->
    conversation ci = Some k -> conversation cj = Some k ->
    loaded ci = Some hi -> loaded cj = Some hj ->
    (finished (phase ci) = true /\ (hi ++ written ci) `prefix_of` hj) \/
    (finished (phase cj) = true /\ (hj ++ written cj) `prefix_of` hi).

(** Every appended turn is in the store, right after the history its call
    loaded. *)
Definition nothing_lost (sys : System) : Prop :=
  forall i c k h t,
    calls sys !! i = Some c -> conversation c = Some k -> loaded c = Some h ->
    appended c = Some t ->
    exists s, store sys !! k = Some s /\ (h ++ [t]) `prefix_of` s.

(** A received call goes ahead unless a call on its own conversation is
    in progress; a call in progress always goes ahead. *)
Definition unblocked (core : Components) (sys : System) : Prop :=
  forall i c persist_ok,
    calls sys !! i = Some c ->
    (phase c = Received ->
     (forall j cj, calls sys !! j = Some cj -> critical (phase cj) = true ->
        conversation cj <> Some (resolve core (store sys) (given c))) ->
     is_Some (run_call core persist_ok c sys)) /\
    (critical (phase c) = true -> is_Some (run_call core persist_ok c sys)).

Definition call_ok (st : gmap string (list Turn)) (hd : gset string) (c : Call) : Prop :=
  if critical (phase c) then
    exists k h, conversation c = Some k /\ loaded c = Some h /\ appended c = None /\
                k ∈ hd /\ st !! k = Some h
  else if finished (phase c) then
    (conversation c = None /\ loaded c = None /\ appended c = None) \/
    exists k h s, conversation c = Some k /\ loaded c = Some h /\
                  st !! k = Some s /\ (h ++ written c) `prefix_of` s
  else conversation c = None /\ loaded c = None /\ appended c = None.

Definition exclusive (sys : System) : Prop :=
  forall i j ci cj,
    calls sys !! i = Some ci -> calls sys !! j = Some cj ->
    critical (phase ci) = true -> critical (phase cj) = true ->
    conversation ci = conversation cj -> i = j.

Definition held_by_a_call (sys : System) : Prop :=
  forall k, k ∈ held sys ->
    exists i c, calls sys !! i = Some c /\ critical (phase c) = true /\
                conversation c = Some k.

Definition invariant (sys : System) : Prop :=
  Forall (call_ok (store sys) (held sys)) (calls sys) /\
  exclusive sys /\ held_by_a_call sys /\ serialized sys.

(** A planner that answers directly, and two requests on the conversation
    [c1], interleaved. *)
Definition sample_core : Components :=
  {| Planner_decide := fun _ _ => Decided "direct" (DirectAnswer "tamam");
     Dispatcher_execute := fun _ => Success Null;
     Composer_compose := fun _ _ _ => "tamam";
     mint := fun _ => "fresh" |}.

Definition sample_events : list Event :=
  [ Arrive "c1" "a"; Arrive "c1" "b"; Run 0 true; Run 1 true; Run 0 true;
    Run 1 true; Run 0 true; Run 1 true; Run 1 true; Run 1 true ].

Definition sample_store : gmap string (list Turn) := {["c1" := []]}.

End Orchestrator.

(** ** The HTTP layer *)

Section ApiFacts.

Variable VITE_API_BASE : Val.

(** [plan] waits exactly once, for the request described here, and then
    finishes with [plan_settled]. *)
Lemma plan_awaits (user_input conversationId : Val) :
  exists rq k,
    plan VITE_API_BASE user_input conversationId = Await rq k /\
    rq_url rq = ToString (API_BASE VITE_API_BASE) +:+ "/plan" /\
    rq_method rq = "POST" /\
    rq_headers rq =
      [("Content-Type", "application/json");
       ("X-Conversation-Id", ToString (or conversationId (Str EmptyString)))] /\
    rq_body rq = Some (JSON_stringify (Obj [("user_input", user_input)])) /\
    forall o, k o = Done (plan_settled o).
Proof.
  eexists _, _. split; [reflexivity|].
  repeat split.
  intros [res|e]; [|reflexivity].
  unfold plan_settled. cbn.
  destruct (json res) as [data|e]; [|reflexivity]. cbn.
  destruct (ok res); [reflexivity|]. cbn.
  destruct (get data "error"); reflexivity.
Qed.

Lemma run_plan (net : Network) (log : list Request) (user_input conversationId : Val) :
  exists rq,
    rq_headers rq =
      [("Content-Type", "application/json");
       ("X-Conversation-Id", ToString (or conversationId (Str EmptyString)))] /\
    rq_body rq = Some (JSON_stringify (Obj [("user_input", user_input)])) /\
    run net (plan VITE_API_BASE user_input conversationId) log
    = (plan_settled (net log rq), log ++ [rq]).
Proof.
  destruct (plan_awaits user_input conversationId) as (rq & k & E & _ & _ & Hh & Hb & Hk).
  exists rq. rewrite E. repeat split; [done..|].
  cbn. by rewrite Hk.
Qed.

Lemma or_string_empty (s : string) : ToString (or (Str s) (Str EmptyString)) = s.
Proof. by destruct s. Qed.


Lemma plan_result (log : list Request) (user_input conversationId : Val)
    (o : Result Response) :
  fst (run (always o) (plan VITE_API_BASE user_input conversationId) log) = plan_settled o.
Proof.
  destruct (run_plan (always o) log user_input conversationId) as (rq & _ & _ & E).
  by rewrite E.
Qed.

Lemma plan_settled_response (res : Response) :
  plan_settled (Return res) =
  match json res with
  | Throw e => Throw e
  | Return data =>
      if ok res then Return data
      else match get data "error" with
           | Throw e => Throw e
           | Return error => Throw (Error (or error (Str (statusText res))))
           end
  end.
Proof.
  unfold plan_settled. cbn.
  destruct (json res) as [data|e]; [|reflexivity]. cbn.
  destruct (ok res); [reflexivity|]. cbn.
  destruct (get data "error"); reflexivity.
Qed.

(** C2, as amended: [plan] raises exactly when the response is not 2xx or
    its body is not JSON (and when the fetch itself fails); on a 2xx
    response it settles to what parsing the body gives, the envelope
    unchanged; on a non-2xx response with a JSON object body the message of
    the error is the body's [error] when that is a non-empty string, and
    the status text when [error] is absent or empty. *)
Theorem plan_raises_or_returns (res : Response) (log : list Request)
    (user_input conversationId : Val) :
  let result := fst (run (always (Return res))
                       (plan VITE_API_BASE user_input conversationId) log) in
  (raises result <-> ok res = false \/ raises (json res)) /\
  (ok res = true -> result = json res) /\
  (forall fields, json res = Return (Obj fields) -> ok res = false ->
     (forall s, field "error" fields = Str s -> s <> EmptyString ->
        result = Throw {| name := "Error"; message := s |}) /\
     (field "error" fields = Undefined \/ field "error" fields = Str EmptyString ->
        result = Throw {| name := "Error"; message := statusText res |})) /\
  (forall e, fst (run (always (Throw e))
                (plan VITE_API_BASE user_input conversationId) log) = Throw e).
Proof.
  cbn zeta. rewrite !plan_result.
  rewrite plan_settled_response.
  split; [|split; [|split]].
  - unfold raises. destruct (json res) as [data|e]; destruct (ok res) eqn:Hok.
    + split; [intros [e He]; discriminate|].
      intros [?|[e He]]; discriminate.
    + split; [auto|]. intros _. destruct (get data "error"); eauto.
    + split; eauto.
    + split; eauto.
  - intros ->. by destruct (json res).
  - intros fields -> ->. cbn. split.
    + intros s -> Hs. by destruct s.
    + by intros [-> | ->].
  - intros e. by rewrite plan_result.
Qed.

(** C8: [listConversations], [getConversation] and [deleteConversation]
    send one request each and settle to whatever parsing the body gives,
    for every response: the status code and the status text play no part,
    so a non-2xx response with a JSON body is returned like any other and
    no error is raised on account of the status. *)
Theorem auxiliary_calls_ignore_status (res : Response) (log : list Request) (cid : Val) :
  let base := ToString (API_BASE VITE_API_BASE) in
  let sent (verb url : string) :=
    log ++ [{| rq_url := url; rq_method := verb; rq_headers := []; rq_body := None |}] in
  run (always (Return res)) (listConversations VITE_API_BASE) log
  = (json res, sent "GET" (base +:+ "/conversations")) /\
  run (always (Return res)) (getConversation VITE_API_BASE cid) log
  = (json res, sent "GET" (base +:+ "/conversations/" +:+ ToString cid)) /\
  run (always (Return res)) (deleteConversation VITE_API_BASE cid) log
  = (json res, sent "DELETE" (base +:+ "/conversations/" +:+ ToString cid)).
Proof.
  cbn zeta. repeat split; cbn.
  all: by destruct (json res).
Qed.

End ApiFacts.

(** A 404 with a JSON body is handed to the caller of [getConversation]
    as the value of the call, where [plan] raises. *)
Example getConversation_on_404 :
  fst (run (always (Return Sample.not_found))
         (getConversation Undefined (Str "srv-9")) [])
  = Return (Obj [("detail", Str "Not Found")]) /\
  fst (run (always (Return Sample.not_found))
         (plan Undefined (Str "merhaba") (Str "srv-9")) [])
  = Throw {| name := "Error"; message := "Not Found" |}.
Proof. split; reflexivity. Qed.

(** ** Trimming *)

Lemma is_space_length (w : list ascii) :
  is_space w = true -> 1 <= length w <= 3.
Proof.
  unfold is_space. intros H. apply bool_decide_eq_true in H.
  cbn in H. repeat (apply elem_of_cons in H as [->|H]; [cbn; lia|]).
  by apply elem_of_nil in H.
Qed.

Lemma dir_dir (b : bool) (w : list ascii) : dir b (dir b w) = w.
Proof. destruct b; [apply rev_involutive | reflexivity]. Qed.

Lemma dir_length (b : bool) (w : list ascii) : length (dir b w) = length w.
Proof. destruct b; [apply length_rev | reflexivity]. Qed.

(** A white space cannot sit at the head of a text whose first one, two
    and three bytes are not white space. *)
Lemma no_space_at_head (b : bool) (s w r : list ascii) :
  is_space w = true ->
  (forall p, length p <= 3 -> p `prefix_of` s -> p <> [] -> is_space (dir b p) = false) ->
  s <> dir b w ++ r.
Proof.
  intros Hw Hs E. pose proof (is_space_length w Hw) as Hlen.
  specialize (Hs (dir b w)). rewrite dir_dir, dir_length in Hs.
  rewrite Hs in Hw; [done|lia|by exists r|].
  intros E'. apply (f_equal length) in E'. rewrite dir_length in E'. cbn in E'. lia.
Qed.

Lemma strip_clean_bounded (b : bool) (n : nat) :
  forall s, length s <= n ->
  forall w r, is_space w = true -> strip b s <> dir b w ++ r.
Proof.
  induction n as [|n IH]; intros s Hn w r Hw.
  - destruct s; [|cbn in Hn; lia]. cbn.
    apply no_space_at_head; [done|].
    intros p _ Hp Hne. by apply prefix_nil_inv in Hp.
  - destruct s as [|a1 s1]; cbn.
    { apply no_space_at_head; [done|].
      intros p _ Hp Hne. by apply prefix_nil_inv in Hp. }
    cbn in Hn.
    destruct (is_space [a1]) eqn:E1; [apply IH; [lia|done]|].
    assert (D1 : forall c, dir c [a1] = [a1]) by (by intros []).
    destruct s1 as [|a2 s2].
    { apply no_space_at_head; [done|]. intros p Hl [q Hp] Hne.
      destruct p as [|x [|y p]]; [done| |done].
      injection Hp as ->. by rewrite D1. }
    cbn in Hn.
    destruct (is_space (dir b [a1; a2])) eqn:E2; [apply IH; [lia|done]|].
    destruct s2 as [|a3 s3].
    { apply no_space_at_head; [done|]. intros p Hl [q Hp] Hne.
      destruct p as [|x [|y [|z p]]]; [done| | |done].
      - injection Hp as -> _. by rewrite D1.
      - injection Hp as -> -> _. done. }
    cbn in Hn.
    destruct (is_space (dir b [a1; a2; a3])) eqn:E3; [apply IH; [lia|done]|].
    apply no_space_at_head; [done|]. intros p Hl [q Hp] Hne.
    destruct p as [|x [|y [|z [|t p]]]]; [done| | | |cbn in Hl; lia].
    + injection Hp as -> _. by rewrite D1.
    + injection Hp as -> -> _. done.
    + injection Hp as -> -> -> _. done.
Qed.

Lemma strip_clean (b : bool) (s w r : list ascii) :
  is_space w = true -> strip b s <> dir b w ++ r.
Proof. by apply (strip_clean_bounded b (length s)). Qed.

Lemma strip_suffix_bounded (b : bool) (n : nat) :
  forall s, length s <= n -> strip b s `suffix_of` s.
Proof.
  induction n as [|n IH]; intros s Hn.
  - destruct s; [done|cbn in Hn; lia].
  - destruct s as [|a1 s1]; [done|]. cbn in *.
    destruct (is_space [a1]); [apply suffix_cons_r, IH; lia|].
    destruct s1 as [|a2 s2]; [done|]. cbn in *.
    destruct (is_space (dir b [a1; a2]));
      [do 2 apply suffix_cons_r; apply IH; lia|].
    destruct s2 as [|a3 s3]; [done|]. cbn in *.
    destruct (is_space (dir b [a1; a2; a3])); [|done].
    do 3 apply suffix_cons_r. apply IH. lia.
Qed.

Lemma strip_suffix (b : bool) (s : list ascii) : strip b s `suffix_of` s.
Proof. by apply (strip_suffix_bounded b (length s)). Qed.

(** What [trim] returns neither begins nor ends with white space. *)
Lemma trim_clean (s : string) :
  ~ leading_space (trim s) /\ ~ trailing_space (trim s).
Proof.
  unfold leading_space, trailing_space, trim.
  set (front := strip false (String.list_ascii_of_string s)).
  rewrite String.list_ascii_of_string_of_list_ascii.
  split; intros (w & r & Hw & E).
  - destruct (strip_suffix true (rev front)) as [p Hp].
    apply (f_equal (@rev ascii)) in Hp.
    rewrite rev_involutive, rev_app_distr, E, <- app_assoc in Hp.
    by apply (strip_clean false (String.list_ascii_of_string s) w
                (r ++ rev p) Hw).
  - apply (f_equal (@rev ascii)) in E.
    rewrite rev_involutive, rev_app_distr in E.
    by apply (strip_clean true (rev front) w (rev r) Hw).
Qed.

(** ** The page *)

Section PageFacts.

Variable VITE_API_BASE : Val.

Lemma truthy_Str (s : string) : truthy (Str s) = false <-> s = EmptyString.
Proof. destruct s; cbn; split; congruence. Qed.

(** A click on the send button with a non-blank input: one request goes
    out, for the trimmed input and the identifier in memory, and the call
    is left pending; nothing else changes but [busy], [err] and [res]. *)
Lemma askPlan_sends (w : World) :
  trim (input (ui w)) <> EmptyString ->
  exists k,
    (forall o, k o = Done (plan_settled o)) /\
    askPlan VITE_API_BASE w =
    {| ui := setRes Null (setErr EmptyString (setBusy true (ui w)));
       localStorage := localStorage w;
       requests := requests w ++
         [plan_post (API_BASE VITE_API_BASE) (trim (input (ui w)))
            (ToString (or (convId (ui w)) (Str EmptyString)))];
       pending := pending w ++ [{| captured := convId (ui w); resume := k |}] |}.
Proof.
  intros Hne. unfold askPlan.
  destruct (truthy (Str (trim (input (ui w))))) eqn:Ht;
    [|by apply truthy_Str in Ht]. cbn [negb].
  destruct (plan_awaits VITE_API_BASE (Str (trim (input (ui w)))) (convId (ui w)))
    as (rq & k & E & Hu & Hm & Hh & Hb & Hk).
  exists k. split; [done|]. rewrite E. cbn.
  do 3 f_equal. destruct rq as [u m h b]; cbn in *. by subst.
Qed.

Lemma askPlan_blank (w : World) :
  trim (input (ui w)) = EmptyString -> askPlan VITE_API_BASE w = w.
Proof. intros E. unfold askPlan. by rewrite E. Qed.

(** The continuation of [askPlan]: no request, no pending call touched;
    the identifier of the response is adopted, in memory and in storage
    together, when it is truthy and not the one the call was made with. *)
Lemma askPlan_settle_effect (c : Val) (o : Result Response) (w : World) :
  let id := returned_id o in
  let w' := askPlan_settle c (plan_settled o) w in
  requests w' = requests w /\ pending w' = pending w /\
  (convId (ui w'), localStorage w') =
  if truthy id && negb (strict_eq id c)
  then (id, setItem "conv_id" id (localStorage w))
  else (convId (ui w), localStorage w).
Proof.
  unfold askPlan_settle, returned_id.
  destruct (plan_settled o) as [data|e]; cbn; [|done].
  destruct (get data "conversation_id") as [id|e]; cbn; [|done].
  by destruct (truthy id && negb (strict_eq id c)).
Qed.

Lemma settle_effect (i : nat) (o : Result Response) (w : World) :
  well_formed w ->
  let id := returned_id o in
  let w' := settle i o w in
  requests w' = requests w /\ well_formed w' /\
  match pending w !! i with
  | None => w' = w
  | Some s =>
      (convId (ui w'), localStorage w') =
      if truthy id && negb (strict_eq id (captured s))
      then (id, setItem "conv_id" id (localStorage w))
      else (convId (ui w), localStorage w)
  end.
Proof.
  intros Hwf. unfold settle.
  destruct (pending w !! i) as [s|] eqn:Hi; [|done].
  assert (Hs : forall o, resume s o = Done (plan_settled o)).
  { unfold well_formed in Hwf. rewrite Forall_lookup in Hwf. by apply (Hwf i). }
  rewrite Hs. cbn [advance].
  set (w0 := {| ui := ui w; localStorage := localStorage w;
                requests := requests w; pending := delete i (pending w) |}).
  pose proof (askPlan_settle_effect (captured s) o w0) as H.
  cbv zeta in H. destruct H as (Hr & Hp & Hid).
  split; [exact Hr|]. split; [|exact Hid].
  unfold well_formed. rewrite Hp. by apply Forall_delete.
Qed.

(** Every step keeps the pending calls well formed and sends at most the
    request of the input and the identifier it finds. *)
Lemma step_requests (w : World) (ev : Event) :
  well_formed w ->
  well_formed (step VITE_API_BASE w ev) /\
  exists new,
    requests (step VITE_API_BASE w ev) = requests w ++ new /\
    Forall (fun rq => rq = plan_post (API_BASE VITE_API_BASE) (trim (input (ui w)))
                            (ToString (or (convId (ui w)) (Str EmptyString)))) new.
Proof.
  intros Hwf.
  assert (same : forall w', well_formed w' -> requests w' = requests w ->
    well_formed w' /\ exists new, requests w' = requests w ++ new /\
      Forall (fun rq => rq = plan_post (API_BASE VITE_API_BASE) (trim (input (ui w)))
                              (ToString (or (convId (ui w)) (Str EmptyString)))) new).
  { intros w' ? E. split; [done|]. exists []. by rewrite app_nil_r. }
  destruct ev as [e|v|b| |e| |i o]; cbn [step].
  - unfold mountEffect.
    destruct (negb _); (apply same; [exact Hwf|reflexivity]).
  - apply same; [exact Hwf|reflexivity].
  - apply same; [exact Hwf|reflexivity].
  - destruct (busy (ui w)); [by apply same|].
    destruct (decide (trim (input (ui w)) = EmptyString)) as [E|E].
    + rewrite askPlan_blank by done. by apply same.
    + destruct (askPlan_sends w E) as (k & Hk & ->). split.
      * unfold well_formed. cbn [pending]. apply Forall_app. split; [done|].
        by apply Forall_singleton.
      * eexists. split; [reflexivity|]. by apply Forall_singleton.
  - apply same; [exact Hwf|reflexivity].
  - apply same; [exact Hwf|reflexivity].
  - pose proof (settle_effect i o w Hwf) as H. cbv zeta in H.
    destruct H as (Hr & Hwf' & _). by apply same.
Qed.

Lemma initial_well_formed (ls : gmap string string) : well_formed (initial ls).
Proof. by apply Forall_nil. Qed.

Lemma play_well_formed (w : World) (evs : list Event) :
  well_formed w -> well_formed (play VITE_API_BASE w evs).
Proof.
  revert w. induction evs as [|ev evs IH]; intros w Hwf; [done|].
  cbn. apply IH. by apply step_requests.
Qed.

(** C4: an input that is blank after trimming is rejected before
    anything happens: [askPlan] returns at once, so no request is sent, no
    call is left pending, and the state (with [err] and [res], hence what
    the page shows) and the storage are what they were. *)
Theorem blank_input_is_ignored (w : World) :
  trim (input (ui w)) = EmptyString ->
  askPlan VITE_API_BASE w = w /\ step VITE_API_BASE w SendClicked = w.
Proof.
  intros E. split; [by apply askPlan_blank|].
  cbn. rewrite askPlan_blank by done. by destruct (busy (ui w)).
Qed.

Lemma play_requests (Q : Request -> Prop) (w : World) (evs : list Event) :
  (forall typed id, Q (plan_post (API_BASE VITE_API_BASE) (trim typed) id)) ->
  well_formed w -> Forall Q (requests w) ->
  Forall Q (requests (play VITE_API_BASE w evs)).
Proof.
  intros HQ. revert w. induction evs as [|ev evs IH]; intros w Hwf Hrq; [done|].
  cbn. destruct (step_requests w ev Hwf) as (Hwf' & new & E & Hnew).
  apply IH; [done|]. rewrite E. apply Forall_app. split; [done|].
  eapply Forall_impl; [exact Hnew|]. intros rq ->. apply HQ.
Qed.

(** C9: every request the page sends carries as [user_input] the trimmed
    form of an input, which neither begins nor ends with white space; and
    what a click on the send button sends, if anything, carries the
    trimmed form of the input that is in the field at that moment. *)
Theorem requests_carry_trimmed_input (ls : gmap string string) (evs : list Event) :
  let w := play VITE_API_BASE (initial ls) evs in
  (forall rq, rq ∈ requests w ->
     exists typed,
       rq_body rq = Some (Obj [("user_input", Str (trim typed))]) /\
       ~ leading_space (trim typed) /\ ~ trailing_space (trim typed)) /\
  (exists new,
     requests (step VITE_API_BASE w SendClicked) = requests w ++ new /\
     Forall (fun rq =>
               rq_body rq = Some (Obj [("user_input", Str (trim (input (ui w))))]))
       new).
Proof.
  cbn zeta.
  assert (Hwf : well_formed (play VITE_API_BASE (initial ls) evs))
    by apply play_well_formed, initial_well_formed.
  split.
  - intros rq Hin.
    assert (Hall : Forall (fun rq => exists typed,
         rq_body rq = Some (Obj [("user_input", Str (trim typed))]) /\
         ~ leading_space (trim typed) /\ ~ trailing_space (trim typed))
       (requests (play VITE_API_BASE (initial ls) evs))).
    { apply play_requests; [|apply initial_well_formed|by apply Forall_nil].
      intros typed id. exists typed. split; [done|]. apply trim_clean. }
    rewrite Forall_forall in Hall. by apply Hall.
  - destruct (step_requests _ SendClicked Hwf) as (_ & new & E & Hnew).
    exists new. split; [done|]. eapply Forall_impl; [exact Hnew|].
    by intros rq ->.
Qed.

Lemma freshId_string (e : Entropy) : exists id, freshId e = Str id.
Proof.
  unfold freshId. destruct (randomUUID e) as [[|a u]|]; cbn; eauto.
Qed.

Lemma mountEffect_agree (e : Entropy) (w : World) : agree (mountEffect e w).
Proof.
  unfold mountEffect, getItem, agree.
  destruct (localStorage w !! "conv_id") as [[|a v]|] eqn:E; cbn.
  - destruct (freshId_string e) as [id ->]. cbn. apply lookup_insert_eq.
  - done.
  - destruct (freshId_string e) as [id ->]. cbn. apply lookup_insert_eq.
Qed.

Lemma strict_eq_Str (y : string) (c : Val) : strict_eq (Str y) c = true <-> c = Str y.
Proof.
  destruct c; cbn; try (split; [discriminate|congruence]).
  rewrite bool_decide_eq_true. split; congruence.
Qed.

Lemma truthy_string_id (id : Val) :
  string_or_none id = true -> truthy id = true -> exists z, id = Str z.
Proof.
  destruct id as [| |[]|n|z| |]; cbn; eauto; try congruence.
  destruct (n =? 0)%Z; cbn; congruence.
Qed.

Lemma step_agree (w : World) (ev : Event) :
  well_formed w -> agree w -> string_id ev = true ->
  agree (step VITE_API_BASE w ev).
Proof.
  intros Hwf Hag Hid. destruct ev as [e|v|b| |e| |i o]; cbn [step].
  - apply mountEffect_agree.
  - exact Hag.
  - exact Hag.
  - destruct (busy (ui w)); [done|].
    destruct (decide (trim (input (ui w)) = EmptyString)) as [E|E].
    + by rewrite askPlan_blank.
    + destruct (askPlan_sends w E) as (k & Hk & ->). exact Hag.
  - unfold resetConversation, agree.
    destruct (freshId_string e) as [id ->]. cbn. apply lookup_insert_eq.
  - unfold newConversation, agree. cbn. apply lookup_delete_eq.
  - pose proof (settle_effect i o w Hwf) as H. cbv zeta in H.
    destruct H as (_ & _ & H).
    destruct (pending w !! i) as [s|]; [|by rewrite H].
    cbn [string_id] in Hid. unfold agree.
    destruct (truthy (returned_id o) && negb (strict_eq (returned_id o) (captured s)))
      eqn:Hadopt; injection H as -> ->; [|exact Hag].
    apply andb_true_iff in Hadopt as [Ht _].
    destruct (truthy_string_id _ Hid Ht) as [z ->].
    apply lookup_insert_eq.
Qed.

(** C10: once the page is mounted, the identifier in memory and the
    [conv_id] entry of [localStorage] agree after every operation (typing,
    sending, the adoption of a returned identifier, [resetConversation],
    [newConversation], a second run of the mount effect): both hold the
    same string, or both are absent.  The identifiers that come from the
    server are strings, as its contract says. *)
Theorem memory_and_storage_agree (ls : gmap string string) (e : Entropy)
    (evs : list Event) :
  forallb string_id evs = true ->
  agree (play VITE_API_BASE (initial ls) (Mounted e :: evs)).
Proof.
  cbn [play fold_left step].
  assert (Hwf : well_formed (mountEffect e (initial ls))).
  { unfold mountEffect. destruct (negb _); exact (initial_well_formed ls). }
  pose proof (mountEffect_agree e (initial ls)) as Hag.
  revert Hwf Hag. generalize (mountEffect e (initial ls)).
  induction evs as [|ev evs IH]; intros w Hwf Hag Hids; [done|].
  cbn in Hids. apply andb_true_iff in Hids as [Hid Hids].
  cbn [fold_left]. apply IH; [|by apply step_agree|done].
  by apply step_requests.
Qed.

(** Whatever the type of the identifiers the server returns, the stored
    entry is the text of the identifier in memory. *)
Lemma step_agree_as_text (w : World) (ev : Event) :
  well_formed w -> agree_as_text w -> agree_as_text (step VITE_API_BASE w ev).
Proof.
  intros Hwf Hag. destruct ev as [e|v|b| |e| |i o]; cbn [step].
  - unfold mountEffect, getItem, agree_as_text.
    destruct (localStorage w !! "conv_id") as [[|a v]|] eqn:E; cbn; [|done|];
      destruct (freshId_string e) as [id ->]; cbn; apply lookup_insert_eq.
  - exact Hag.
  - exact Hag.
  - destruct (busy (ui w)); [done|].
    destruct (decide (trim (input (ui w)) = EmptyString)) as [E|E].
    + by rewrite askPlan_blank.
    + destruct (askPlan_sends w E) as (k & Hk & ->). exact Hag.
  - unfold resetConversation, agree_as_text.
    destruct (freshId_string e) as [id ->]. cbn. apply lookup_insert_eq.
  - unfold newConversation, agree_as_text. cbn. apply lookup_delete_eq.
  - pose proof (settle_effect i o w Hwf) as H. cbv zeta in H.
    destruct H as (_ & _ & H).
    destruct (pending w !! i) as [s|]; [|by rewrite H].
    unfold agree_as_text.
    destruct (truthy (returned_id o) && negb (strict_eq (returned_id o) (captured s)))
      eqn:Hadopt; injection H as -> ->; [|exact Hag].
    apply andb_true_iff in Hadopt as [Ht _].
    destruct (returned_id o); try discriminate; apply lookup_insert_eq.
Qed.

Lemma header_plan_post (base : Val) (user_input id : string) :
  header "X-Conversation-Id" (plan_post base user_input id) = Some id.
Proof. reflexivity. Qed.

Lemma step_keeps (y : string) (w : World) (ev : Event) :
  y <> EmptyString ->
  well_formed w -> convId (ui w) = Str y -> localStorage w !! "conv_id" = Some y ->
  keeps y ev = true ->
  let w' := step VITE_API_BASE w ev in
  well_formed w' /\ convId (ui w') = Str y /\ localStorage w' !! "conv_id" = Some y /\
  exists new, requests w' = requests w ++ new /\
    Forall (fun rq => header "X-Conversation-Id" rq = Some y) new.
Proof.
  intros Hy Hwf Hc Hs Hk. cbv zeta.
  destruct (step_requests w ev Hwf) as (Hwf' & new & E & Hnew).
  split; [done|].
  assert (Hhdr : exists new, requests (step VITE_API_BASE w ev) = requests w ++ new /\
            Forall (fun rq => header "X-Conversation-Id" rq = Some y) new).
  { exists new. split; [done|]. eapply Forall_impl; [exact Hnew|].
    intros rq ->. rewrite Hc, or_string_empty. apply header_plan_post. }
  cut (convId (ui (step VITE_API_BASE w ev)) = Str y /\
       localStorage (step VITE_API_BASE w ev) !! "conv_id" = Some y); [tauto|].
  clear Hhdr Hnew E new Hwf'.
  destruct ev as [e|v|b| |e| |i o]; cbn [step]; try discriminate; try done.
  - unfold mountEffect, getItem. rewrite Hs.
    destruct y; [done|]. done.
  - destruct (busy (ui w)); [done|].
    destruct (decide (trim (input (ui w)) = EmptyString)) as [E|E].
    + by rewrite askPlan_blank.
    + by destruct (askPlan_sends w E) as (k & _ & ->).
  - pose proof (settle_effect i o w Hwf) as H. cbv zeta in H.
    destruct H as (_ & _ & H).
    destruct (pending w !! i) as [s|]; [|by rewrite H].
    cbn in Hk.
    destruct (truthy (returned_id o) && negb (strict_eq (returned_id o) (captured s)))
      eqn:Hadopt; injection H as -> ->; [|done].
    apply andb_true_iff in Hadopt as [Ht _].
    destruct (returned_id o) as [| |[]|n|z| |]; cbn in Ht, Hk; try congruence.
    + destruct (n =? 0)%Z; cbn in Ht, Hk; congruence.
    + apply orb_true_iff in Hk as [Hz|Hz]; apply bool_decide_eq_true in Hz; subst z.
      * split; [done|]. apply lookup_insert_eq.
      * done.
Qed.

Lemma play_keeps (y : string) (evs : list Event) :
  y <> EmptyString ->
  forall w,
  well_formed w -> convId (ui w) = Str y -> localStorage w !! "conv_id" = Some y ->
  forallb (keeps y) evs = true ->
  exists new, requests (play VITE_API_BASE w evs) = requests w ++ new /\
    Forall (fun rq => header "X-Conversation-Id" rq = Some y) new.
Proof.
  intros Hy. induction evs as [|ev evs IH]; intros w Hwf Hc Hs Hk.
  - exists []. by rewrite app_nil_r.
  - cbn in Hk. apply andb_true_iff in Hk as [Hk Hks].
    pose proof (step_keeps y w ev Hy Hwf Hc Hs Hk) as H. cbv zeta in H.
    destruct H as (Hwf' & Hc' & Hs' & new & E & Hnew).
    destruct (IH _ Hwf' Hc' Hs' Hks) as (new' & E' & Hnew').
    exists (new ++ new').
    change (play VITE_API_BASE w (ev :: evs))
      with (play VITE_API_BASE (step VITE_API_BASE w ev) evs).
    rewrite E', E, <- app_assoc.
    split; [done|]. by apply Forall_app.
Qed.

(** C3: when the envelope that [plan] returns carries an identifier [y]
    that is not the one the call was made with (which may have been none),
    [askPlan] adopts it: it becomes the identifier in memory and the stored
    one, and it is the [X-Conversation-Id] of every request sent from then
    on, until the conversation is reset or the server returns yet another
    identifier. *)
Theorem returned_id_is_adopted (ls : gmap string string) (evs later : list Event)
    (i : nat) (s : Suspended) (o : Result Response) (y : string) :
  let w := play VITE_API_BASE (initial ls) evs in
  pending w !! i = Some s ->
  returned_id o = Str y -> y <> EmptyString -> captured s <> Str y ->
  forallb (keeps y) later = true ->
  let w1 := settle i o w in
  convId (ui w1) = Str y /\ localStorage w1 !! "conv_id" = Some y /\
  exists new,
    requests (play VITE_API_BASE w1 later) = requests w1 ++ new /\
    Forall (fun rq => header "X-Conversation-Id" rq = Some y) new.
Proof.
  intros w Hi Ho Hy Hc Hk w1.
  assert (Hwf : well_formed w) by apply play_well_formed, initial_well_formed.
  pose proof (settle_effect i o w Hwf) as H. cbv zeta in H.
  destruct H as (_ & Hwf1 & H). rewrite Hi, Ho in H.
  assert (Hne : strict_eq (Str y) (captured s) = false).
  { apply not_true_is_false. by rewrite strict_eq_Str. }
  rewrite Hne in H. replace (truthy (Str y)) with true in H by (by destruct y).
  cbn in H. injection H as Hc1 Hs1.
  assert (Hs1' : localStorage w1 !! "conv_id" = Some y).
  { subst w1. rewrite Hs1. apply lookup_insert_eq. }
  split; [done|]. split; [done|].
  by apply play_keeps.
Qed.

End PageFacts.

(** ** What the page shows *)

Section RenderFacts.

Variable Date_toLocaleString : Val -> string.
Variable JSON_pretty : Val -> Val.

Lemma mapM_Return {A B : Type} (Q : B -> Prop) (f : A -> Result B) (l : list A)
    (ys : list B) :
  (forall x y, f x = Return y -> Q y) ->
  mapM f l = Return ys -> Forall Q ys.
Proof.
  intros Hf. revert ys. induction l as [|x l IH]; intros ys; cbn.
  - intros [= <-]. constructor.
  - destruct (f x) as [y|e] eqn:Ey; cbn; [|discriminate].
    destruct (mapM f l) as [k|e]; cbn; [|discriminate].
    intros [= <-]. constructor; eauto.
Qed.

Lemma flat_map_nil {A B : Type} (f : A -> list B) (l : list A) :
  Forall (fun x => f x = []) l -> flat_map f l = [].
Proof. induction 1 as [|x l Hx _ IH]; cbn; [done|]. by rewrite Hx, IH. Qed.

Lemma select_when (p : string -> list (string * Val) -> bool) (c : Val) (n : VNode) :
  select p (when c n) = if truthy c then select p n else [].
Proof. unfold when. by destruct (truthy c). Qed.

Lemma EmailsList_select p (emails : list Val) (n : VNode) :
  probe p -> EmailsList emails = Return n -> select p n = [].
Proof.
  intros Hp. unfold EmailsList.
  destruct (negb _).
  { intros [= <-]. by destruct Hp as [-> | ->]. }
  destruct (mapM _ emails) as [items|e] eqn:Hitems; cbn; [|discriminate].
  intros [= <-].
  assert (Hall : Forall (fun li => select p li = []) items).
  { eapply mapM_Return; [|exact Hitems]. clear Hitems items.
    intros m li. cbn.
    destruct (get m "id") as [id|]; cbn; [|discriminate].
    destruct (get m "subject") as [subject|]; cbn; [|discriminate].
    destruct (get m "from") as [from|]; cbn; [|discriminate].
    destruct (get m "date") as [date|]; cbn; [|discriminate].
    destruct (get m "snippet") as [snippet|]; cbn; [|discriminate].
    intros [= <-]. unfold when.
    by destruct Hp as [-> | ->]; destruct (truthy snippet). }
  cbn. rewrite (flat_map_nil _ _ Hall).
  by destruct Hp as [-> | ->].
Qed.

Lemma SlotsTable_select p (slots : list Val) (n : VNode) :
  probe p -> SlotsTable Date_toLocaleString slots = Return n -> select p n = [].
Proof.
  intros Hp. unfold SlotsTable.
  destruct (negb _).
  { intros [= <-]. by destruct Hp as [-> | ->]. }
  destruct (mapM _ _) as [chips|e] eqn:Hchips; cbn; [|discriminate].
  intros [= <-].
  assert (Hall : Forall (fun chip => select p chip = []) chips).
  { eapply mapM_Return; [|exact Hchips]. clear Hchips chips.
    intros [i sl] chip. cbn.
    destruct (get sl "start") as [start|]; cbn; [|discriminate].
    destruct (get sl "end") as [end_|]; cbn; [|discriminate].
    intros [= <-]. by destruct Hp as [-> | ->]. }
  cbn. rewrite (flat_map_nil _ _ Hall).
  by destruct Hp as [-> | ->].
Qed.

Lemma EventCard_select p (created : Val) (n : VNode) :
  probe p -> EventCard Date_toLocaleString created = Return n -> select p n = [].
Proof.
  intros Hp. unfold EventCard.
  destruct (negb _); [by intros [= <-]|].
  destruct (get created "summary") as [summary|]; cbn; [|discriminate].
  destruct (get created "start") as [start|]; cbn; [|discriminate].
  destruct (get created "end") as [end_|]; cbn; [|discriminate].
  destruct (get created "htmlLink") as [htmlLink|]; cbn; [|discriminate].
  intros [= <-]. unfold when.
  by destruct Hp as [-> | ->]; destruct (truthy htmlLink).
Qed.

Lemma get_opt_prop (v : Val) (k : string) : get_opt v k = Return (prop v k).
Proof. unfold prop. by destruct v. Qed.

Lemma get_prop (v : Val) (k : string) : truthy v = true -> get v k = Return (prop v k).
Proof. unfold prop. by destruct v. Qed.

Lemma or_truthy (a b : Val) : truthy b = true -> truthy (or a b) = true.
Proof. unfold or. by destruct (truthy a) eqn:E. Qed.

Lemma select_Section p (t : string) (children : list VNode) :
  probe p -> select p (Section_ t children) = title_of p t ++ flat_map (select p) children.
Proof.
  unfold title_of. intros [-> | ->]; cbn; by rewrite ?app_nil_r.
Qed.

Lemma resultCard_select p (st : State) (emails slots created : Val) (card : VNode) :
  probe p ->
  resultCard Date_toLocaleString JSON_pretty st emails slots created = Return card ->
  select p card =
  if truthy (res st) then
    title_of p "Özet"
    ++ (if p "div" [className "final"]
        then [[Expr (or (prop (res st) "final_answer") (Str "—"))]] else [])
    ++ (if isArray emails then title_of p "E-postalar (önemli)" else [])
    ++ (if isArray slots then title_of p "Uygun zaman blokları" else [])
    ++ (if truthy created then title_of p "Oluşturulan etkinlik" else [])
    ++ (if showDebug st then
          title_of p "plan_text" ++ title_of p "tool_call"
          ++ (if truthy (prop (res st) "tool_output") then title_of p "tool_output" else [])
        else [])
  else [].
Proof.
  intros Hp. unfold resultCard.
  destruct (truthy (res st)) eqn:Hres; cbn [negb]; [|by intros [= <-]].
  rewrite !(get_prop (res st)) by done. cbn [mbind result_bind].
  lazymatch goal with |- mbind ?f ?m = _ -> _ =>
    destruct m as [e|] eqn:Ee; [|discriminate] end.
  cbn [mbind result_bind].
  lazymatch goal with |- mbind ?f ?m = _ -> _ =>
    destruct m as [sl|] eqn:Es; [|discriminate] end.
  cbn [mbind result_bind].
  lazymatch goal with |- mbind ?f ?m = _ -> _ =>
    destruct m as [c|] eqn:Ec; [|discriminate] end.
  cbn [mbind result_bind].
  lazymatch goal with |- mbind ?f ?m = _ -> _ =>
    destruct m as [d|] eqn:Ed; [|discriminate] end.
  cbn [mbind result_bind]. intros [= <-].
  assert (He : select p e = if isArray emails then title_of p "E-postalar (önemli)" else []).
  { destruct emails as [| | | | |xs|]; try (injection Ee as <-; reflexivity).
    destruct (EmailsList xs) as [ul|] eqn:Eul; [|discriminate].
    injection Ee as <-. rewrite select_Section by done. cbn.
    by rewrite (EmailsList_select p xs ul Hp Eul), !app_nil_r. }
  assert (Hs : select p sl = if isArray slots then title_of p "Uygun zaman blokları" else []).
  { destruct slots as [| | | | |xs|]; try (injection Es as <-; reflexivity).
    destruct (SlotsTable Date_toLocaleString xs) as [tb|] eqn:Etb; [|discriminate].
    injection Es as <-. rewrite select_Section by done. cbn.
    by rewrite (SlotsTable_select p xs tb Hp Etb), !app_nil_r. }
  assert (Hc : select p c = if truthy created then title_of p "Oluşturulan etkinlik" else []).
  { destruct (truthy created); [|by injection Ec as <-].
    destruct (EventCard Date_toLocaleString created) as [ec|] eqn:Eec; [|discriminate].
    injection Ec as <-. rewrite select_Section by done. cbn.
    by rewrite (EventCard_select p created ec Hp Eec), !app_nil_r. }
  assert (Hd : select p d = if showDebug st then
          title_of p "plan_text" ++ title_of p "tool_call"
          ++ (if truthy (prop (res st) "tool_output") then title_of p "tool_output" else [])
        else []).
  { destruct (showDebug st); [|by injection Ed as <-].
    injection Ed as <-. unfold when, title_of.
    by destruct Hp as [-> | ->]; destruct (truthy (prop (res st) "tool_output")). }
  cbn [select flat_map]. rewrite select_Section by done. cbn [flat_map select].
  rewrite He, Hs, Hc, Hd, !app_nil_r.
  unfold title_of. by destruct Hp as [-> | ->].
Qed.

Lemma App_select p (st : State) (tree : VNode) :
  probe p ->
  App Date_toLocaleString JSON_pretty st = Return tree ->
  exists card,
    resultCard Date_toLocaleString JSON_pretty st (payload st "emails")
      (payload st "free_slots") (payload st "created") = Return card /\
    select p tree = select p card.
Proof.
  intros Hp. unfold App. rewrite get_opt_prop. cbn [mbind result_bind].
  assert (Ht : truthy (or (prop (res st) "tool_output") (Obj [])) = true)
    by by apply or_truthy.
  rewrite !(get_prop _ _ Ht). cbn [mbind result_bind].
  fold (payload st "emails") (payload st "free_slots") (payload st "created").
  destruct (resultCard _ _ _ _ _ _) as [card|]; [|discriminate].
  cbn [mbind result_bind]. intros [= <-]. exists card. split; [done|].
  unfold when.
  unfold when.
  destruct Hp as [-> | ->];
    destruct (truthy (Str (err st))), (truthy (Bool (negb (truthy (res st)))));
    cbn [select flat_map];
    match goal with |- context [select ?p card] => generalize (select p card) end;
    intros x; vm_compute;
    exact (eq_trans (f_equal (fun l => l ++ []) (app_nil_r x)) (app_nil_r x)).
Qed.


Lemma final_answer_shown (st : State) (tree : VNode) :
  App Date_toLocaleString JSON_pretty st = Return tree ->
  select (has_class "final") tree =
  if truthy (res st)
  then [[Expr (or (prop (res st) "final_answer") (Str "—"))]] else [].
Proof.
  intros Happ.
  destruct (App_select (has_class "final") st tree) as (card & Hcard & ->);
    [by right|done|].
  rewrite (resultCard_select _ _ _ _ _ _ (or_intror eq_refl) Hcard).
  unfold title_of. cbn.
  destruct (truthy (res st)); [|done].
  destruct (isArray _), (isArray _), (truthy (payload st "created")),
    (showDebug st), (truthy (prop (res st) "tool_output")); reflexivity.
Qed.


End RenderFacts.

(** ** The orchestrator: serialized turns *)

Module OrchestratorFacts.
Import Orchestrator.
Section Core.
Variable core : Components.
Lemma start_invariant (st : gmap string (list Turn)) : invariant (start st).
Proof.
  split; [by apply Forall_nil|]. split; [|split].
  - intros i j ci cj Hi. by destruct i.
  - intros k Hk. set_solver.
  - intros i j ci cj k hi hj _ Hi. by destruct i.
Qed.

Lemma arrive_invariant (sys : System) (id text : string) :
  invariant sys -> invariant (step core sys (Arrive id text)).
Proof.
  intros (Hok & Hex & Hheld & Hser). cbn.
  set (new := {| given := id; user_input := text; phase := Received;
                 conversation := None; loaded := None; appended := None |}).
  assert (Hnew : forall j cj, (calls sys ++ [new]) !! j = Some cj ->
            calls sys !! j = Some cj \/ cj = new).
  { intros j cj Hj. apply lookup_app_Some in Hj as [Hj|[_ Hj]]; [by left|].
    right. apply list_lookup_singleton_Some in Hj as [_ <-]. done. }
  split; [|split; [|split]]; cbn.
  - apply Forall_app. split; [done|]. by apply Forall_singleton.
  - intros i j ci cj Hi Hj Hci Hcj.
    destruct (Hnew _ _ Hi) as [Hi'| ->]; [|done].
    destruct (Hnew _ _ Hj) as [Hj'| ->]; [|done]. eauto.
  - intros k Hk. destruct (Hheld k Hk) as (i & c & Hi & Hc).
    exists i, c. split; [|done]. by apply lookup_app_l_Some.
  - intros i j ci cj k hi hj Hne Hi Hj Hki Hkj.
    destruct (Hnew _ _ Hi) as [Hi'| ->]; [|done].
    destruct (Hnew _ _ Hj) as [Hj'| ->]; [|done]. eauto.
Qed.

Lemma finished_not_critical (ph : Phase) : finished ph = true -> critical ph = false.
Proof. by destruct ph. Qed.

Lemma insert_call (l : list Call) (i j : nat) (c c' cj : Call) :
  l !! i = Some c -> <[i := c']> l !! j = Some cj ->
  (j = i /\ cj = c') \/ (j <> i /\ l !! j = Some cj).
Proof.
  intros Hi Hj. apply list_lookup_insert_Some in Hj as [(-> & -> & _)|[Hne Hj]]; eauto.
Qed.

Lemma history_known (st : gmap string (list Turn)) (k : string) (s : list Turn) :
  st !! k = Some s -> history st k = s.
Proof. unfold history. by intros ->. Qed.

(** A step that changes the phase of call [i] only, within the calls that
    hold their conversation or into the calls that have let go of it. *)
Lemma moved_invariant (sys : System) (i : nat) (c : Call) (ph : Phase) :
  invariant sys -> calls sys !! i = Some c ->
  critical ph = critical (phase c) ->
  (critical ph = false -> finished ph = true) ->
  invariant {| store := store sys; held := held sys;
               calls := <[i := moved ph c]> (calls sys) |}.
Proof.
  intros (Hok & Hex & Hheld & Hser) Hi Hcrit Hfin.
  rewrite Forall_lookup in Hok.
  assert (Hfin' : finished (phase c) = true -> finished ph = true).
  { intros H. apply Hfin. rewrite Hcrit. by apply finished_not_critical. }
  split; [|split; [|split]]; cbn.
  - apply Forall_lookup. intros j cj Hj.
    destruct (insert_call _ _ _ _ _ _ Hi Hj) as [[-> ->]|[Hne Hj']]; [|eauto].
    specialize (Hok i c Hi). unfold call_ok in *. cbn. rewrite Hcrit.
    destruct (critical (phase c)) eqn:Hc; [done|].
    rewrite Hfin by (by rewrite Hcrit).
    destruct (finished (phase c)); [done|by left].
  - intros a b ca cb Ha Hb Hca Hcb Heq.
    destruct (insert_call _ _ _ _ _ _ Hi Ha) as [[-> ->]|[Hna Ha']];
      destruct (insert_call _ _ _ _ _ _ Hi Hb) as [[-> ->]|[Hnb Hb']];
      [done| | |by eapply Hex].
    + cbn in Hca. rewrite Hcrit in Hca. by eapply (Hex i b c cb).
    + cbn in Hcb. rewrite Hcrit in Hcb. by eapply (Hex a i ca c).
  - intros k Hk. destruct (Hheld k Hk) as (j & cj & Hj & Hcj & Hkj).
    destruct (decide (j = i)) as [->|Hne].
    + exists i, (moved ph c). cbn.
      rewrite list_lookup_insert_eq by by eapply lookup_lt_Some.
      assert (cj = c) as -> by congruence. by rewrite Hcrit.
    + exists j, cj. cbn. by rewrite list_lookup_insert_ne.
  - intros a b ca cb k ha hb Hne Ha Hb Hka Hkb Hla Hlb.
    destruct (insert_call _ _ _ _ _ _ Hi Ha) as [[-> ->]|[Hna Ha']];
      destruct (insert_call _ _ _ _ _ _ Hi Hb) as [[-> ->]|[Hnb Hb']];
      [congruence| | |by apply (Hser a b ca cb k ha hb)].
    + destruct (Hser i b c cb k ha hb Hne Hi Hb' Hka Hkb Hla Hlb) as [[Hf Hp]|?];
        [left|by right]. split; [by apply Hfin'|done].
    + destruct (Hser a i ca c k ha hb Hne Ha' Hi Hka Hkb Hla Hlb) as [?|[Hf Hp]];
        [by left|right]. split; [by apply Hfin'|done].
Qed.

(** A received call takes a conversation that nobody holds and loads its
    history. *)
Lemma acquire_invariant (sys : System) (i : nat) (c : Call) (k : string) :
  invariant sys -> calls sys !! i = Some c -> phase c = Received ->
  k ∉ held sys ->
  invariant
    {| store := <[k := history (store sys) k]> (store sys);
       held := {[k]} ∪ held sys;
       calls := <[i := {| given := given c; user_input := user_input c;
                          phase := Planning; conversation := Some k;
                          loaded := Some (history (store sys) k);
                          appended := None |}]> (calls sys) |}.
Proof.
  intros (Hok & Hex & Hheld & Hser) Hi Hph Hk.
  rewrite Forall_lookup in Hok.
  set (c' := {| given := given c; user_input := user_input c; phase := Planning;
                conversation := Some k; loaded := Some (history (store sys) k);
                appended := None |}).
  assert (Hbusy : forall j cj, calls sys !! j = Some cj ->
            critical (phase cj) = true -> conversation cj <> Some k).
  { intros j cj Hj Hc Hkj. specialize (Hok j cj Hj). unfold call_ok in Hok.
    rewrite Hc in Hok. destruct Hok as (k' & h & Hk' & _ & _ & Hin & _).
    congruence. }
  assert (Hleft : forall j cj hj, calls sys !! j = Some cj ->
            conversation cj = Some k -> loaded cj = Some hj ->
            finished (phase cj) = true /\
            (hj ++ written cj) `prefix_of` history (store sys) k).
  { intros j cj hj Hj Hkj Hlj. pose proof (Hok j cj Hj) as H. unfold call_ok in H.
    destruct (critical (phase cj)) eqn:Hc; [by destruct (Hbusy j cj Hj Hc)|].
    destruct (finished (phase cj)); [|destruct H; congruence].
    destruct H as [[? _]|(k' & h & s0 & Hk' & Hl & Hs & Hp)]; [congruence|].
    split; [done|]. assert (k' = k) as -> by congruence.
    rewrite (history_known _ _ _ Hs). congruence. }
  split; [|split; [|split]]; cbn.
  - apply Forall_lookup. intros j cj Hj.
    destruct (insert_call _ _ _ _ _ _ Hi Hj) as [[-> ->]|[Hne Hj']].
    + unfold call_ok. cbn. exists k, (history (store sys) k).
      repeat split; [set_solver|apply lookup_insert_eq].
    + specialize (Hok j cj Hj'). unfold call_ok in *.
      destruct (critical (phase cj)).
      * destruct Hok as (k' & h & ? & ? & ? & Hin & Hst). exists k', h.
        repeat split; [done..|set_solver|].
        rewrite lookup_insert_ne; [done|]. intros ->. done.
      * destruct (finished (phase cj)); [|done].
        destruct Hok as [?|(k' & h & s0 & ? & ? & Hst & Hp)]; [by left|right].
        exists k', h, s0. repeat split; [done..| |done].
        destruct (decide (k = k')) as [->|Hne'].
        -- by rewrite lookup_insert_eq, (history_known _ _ _ Hst).
        -- by rewrite lookup_insert_ne.
  - intros a b ca cb Ha Hb Hca Hcb Heq.
    destruct (insert_call _ _ _ _ _ _ Hi Ha) as [[-> ->]|[Hna Ha']];
      destruct (insert_call _ _ _ _ _ _ Hi Hb) as [[-> ->]|[Hnb Hb']];
      [done| | |by eapply Hex].
    + by destruct (Hbusy b cb Hb' Hcb).
    + by destruct (Hbusy a ca Ha' Hca).
  - intros k' Hk'. destruct (decide (k' = k)) as [->|Hne].
    + exists i, c'. cbn.
      by rewrite list_lookup_insert_eq by by eapply lookup_lt_Some.
    + destruct (Hheld k') as (j & cj & Hj & Hcj & Hkj); [set_solver|].
      exists j, cj. cbn. rewrite list_lookup_insert_ne; [done|].
      intros ->. assert (cj = c) as -> by congruence. by rewrite Hph in Hcj.
  - intros a b ca cb k0 ha hb Hne Ha Hb Hka Hkb Hla Hlb.
    destruct (insert_call _ _ _ _ _ _ Hi Ha) as [[-> ->]|[Hna Ha']];
      destruct (insert_call _ _ _ _ _ _ Hi Hb) as [[-> ->]|[Hnb Hb']];
      [congruence| | |by apply (Hser a b ca cb k0 ha hb)].
    + right. cbn in Hka, Hla. injection Hka as <-. injection Hla as <-.
      by apply (Hleft b cb hb).
    + left. cbn in Hkb, Hlb. injection Hkb as <-. injection Hlb as <-.
      by apply (Hleft a ca ha).
Qed.

(** A call that holds its conversation appends its turn, if the store
    takes it, and lets go. *)
Lemma finish_invariant (sys : System) (i : nat) (c : Call) (k : string)
    (ph : Phase) (persist_ok : bool) (t : Turn) :
  invariant sys -> calls sys !! i = Some c -> critical (phase c) = true ->
  conversation c = Some k -> finished ph = true ->
  invariant
    {| store := (finish ph persist_ok k t c sys).1.2;
       held := (finish ph persist_ok k t c sys).2;
       calls := <[i := (finish ph persist_ok k t c sys).1.1]> (calls sys) |}.
Proof.
  intros (Hok & Hex & Hheld & Hser) Hi Hcrit Hk Hfin.
  rewrite Forall_lookup in Hok.
  pose proof (Hok i c Hi) as Hc. unfold call_ok in Hc. rewrite Hcrit in Hc.
  destruct Hc as (k0 & h & Hk0 & Hl & Ha & Hin & Hst).
  assert (k0 = k) as -> by congruence.
  assert (Hother : forall j cj, j <> i -> calls sys !! j = Some cj ->
            critical (phase cj) = true -> conversation cj <> Some k).
  { intros j cj Hne Hj Hcj Hkj. apply Hne.
    apply (Hex j i cj c); [done..|congruence]. }
  set (st' := if persist_ok then append k t (store sys) else store sys).
  assert (Hgrow : forall k' s0, store sys !! k' = Some s0 ->
            exists s1, st' !! k' = Some s1 /\ s0 `prefix_of` s1).
  { intros k' s0 Hs. unfold st', append. destruct persist_ok; [|by exists s0].
    destruct (decide (k = k')) as [->|Hne].
    - exists (s0 ++ [t]). rewrite lookup_insert_eq, (history_known _ _ _ Hs).
      split; [done|]. by apply prefix_app_r.
    - exists s0. by rewrite lookup_insert_ne. }
  assert (Hsame : forall k', k' <> k -> st' !! k' = store sys !! k').
  { intros k' Hne. unfold st', append. destruct persist_ok; [|done].
    by rewrite lookup_insert_ne. }
  split; [|split; [|split]]; cbn; fold st'.
  - apply Forall_lookup. intros j cj Hj.
    destruct (insert_call _ _ _ _ _ _ Hi Hj) as [[-> ->]|[Hne Hj']].
    + unfold call_ok. cbn. rewrite (finished_not_critical _ Hfin), Hfin.
      right. exists k, h. unfold written, st', append. cbn.
      destruct persist_ok; cbn.
      * exists (h ++ [t]). rewrite lookup_insert_eq, (history_known _ _ _ Hst). done.
      * exists h. by rewrite app_nil_r.
    + pose proof (Hok j cj Hj') as H. unfold call_ok in *.
      destruct (critical (phase cj)) eqn:Hcj.
      * destruct H as (k' & h' & ? & ? & ? & Hin' & Hst'). exists k', h'.
        assert (k' <> k) by (intros ->; by apply (Hother j cj)).
        repeat split; [done..|set_solver|by rewrite Hsame].
      * destruct (finished (phase cj)); [|done].
        destruct H as [?|(k' & h' & s0 & ? & ? & Hst' & Hp)]; [by left|right].
        destruct (Hgrow k' s0 Hst') as (s1 & Hs1 & Hp1).
        exists k', h', s1. repeat split; [done..|]. by etrans.
  - intros a b ca cb Ha' Hb Hca Hcb Heq.
    destruct (insert_call _ _ _ _ _ _ Hi Ha') as [[-> ->]|[Hna Ha'']];
      destruct (insert_call _ _ _ _ _ _ Hi Hb) as [[-> ->]|[Hnb Hb']];
      [done| | |by eapply Hex].
    + cbn in Hca. by rewrite (finished_not_critical _ Hfin) in Hca.
    + cbn in Hcb. by rewrite (finished_not_critical _ Hfin) in Hcb.
  - intros k' Hk'. destruct (Hheld k') as (j & cj & Hj & Hcj & Hkj); [set_solver|].
    exists j, cj. cbn. rewrite list_lookup_insert_ne; [done|].
    intros ->. assert (cj = c) as -> by congruence. set_solver.
  - intros a b ca cb k0 ha hb Hne Ha' Hb Hka Hkb Hla Hlb.
    destruct (insert_call _ _ _ _ _ _ Hi Ha') as [[-> ->]|[Hna Ha'']];
      destruct (insert_call _ _ _ _ _ _ Hi Hb) as [[-> ->]|[Hnb Hb']];
      [congruence| | |by apply (Hser a b ca cb k0 ha hb)].
    + cbn in Hka, Hla.
      destruct (Hser i b c cb k0 ha hb Hne Hi Hb' Hka Hkb Hla Hlb) as [[Hf _]|?];
        [|by right].
      by rewrite (finished_not_critical _ Hf) in Hcrit.
    + cbn in Hkb, Hlb.
      destruct (Hser a i ca c k0 ha hb Hne Ha'' Hi Hka Hkb Hla Hlb) as [?|[Hf _]];
        [by left|].
      by rewrite (finished_not_critical _ Hf) in Hcrit.
Qed.

Lemma step_invariant (sys : System) (ev : Event) :
  invariant sys -> invariant (step core sys ev).
Proof.
  intros Hinv. destruct ev as [id text|i persist_ok]; [by apply arrive_invariant|].
  cbn. destruct (calls sys !! i) as [c|] eqn:Hi; [|done].
  unfold run_call. destruct (phase c) as [| |rationale call|rationale d result|envelope| |] eqn:Hph.
  - destruct (bool_decide (trim (user_input c) = EmptyString)).
    + by apply moved_invariant; rewrite ?Hph.
    + destruct (bool_decide (resolve core (store sys) (given c) ∈ held sys)) eqn:Hk;
        [done|].
      apply acquire_invariant; [done..|]. by apply bool_decide_eq_false in Hk.
  - destruct (conversation c) as [k|] eqn:Hk; [|done].
    destruct (loaded c) as [h|]; [|done].
    destruct (Planner_decide core h (user_input c)) as [rationale [call|text]|kind].
    + by apply moved_invariant; rewrite ?Hph.
    + by apply moved_invariant; rewrite ?Hph.
    + by apply finish_invariant; rewrite ?Hph.
  - by apply moved_invariant; rewrite ?Hph.
  - destruct (conversation c) as [k|] eqn:Hk; [|done].
    by apply finish_invariant; rewrite ?Hph.
  - by apply moved_invariant; rewrite ?Hph.
  - done.
  - done.
Qed.

Lemma exec_invariant (sys : System) (evs : list Event) :
  invariant sys -> invariant (exec core sys evs).
Proof.
  revert sys. induction evs as [|ev evs IH]; intros sys Hinv; [done|].
  cbn. apply IH. by apply step_invariant.
Qed.

Lemma invariant_nothing_lost (sys : System) : invariant sys -> nothing_lost sys.
Proof.
  intros (Hok & _) i c k h t Hi Hk Hl Ha. rewrite Forall_lookup in Hok.
  specialize (Hok i c Hi). unfold call_ok, written in Hok. rewrite Ha in Hok.
  destruct (critical (phase c)).
  { destruct Hok as (? & ? & _ & _ & ? & _). congruence. }
  destruct (finished (phase c)); [|destruct Hok as (_ & _ & ?); congruence].
  destruct Hok as [(? & _)|(k' & h' & s0 & Hk' & Hl' & Hs & Hp)]; [congruence|].
  exists s0. cbn in Hp. split; congruence.
Qed.

Lemma invariant_unblocked (sys : System) : invariant sys -> unblocked core sys.
Proof.
  intros (Hok & _ & Hheld & _) i c persist_ok Hi. rewrite Forall_lookup in Hok.
  unfold run_call. split.
  - intros -> Hfree.
    destruct (bool_decide (trim (user_input c) = EmptyString)); [by eexists|].
    destruct (bool_decide (resolve core (store sys) (given c) ∈ held sys)) eqn:Hk;
      [|by eexists].
    apply bool_decide_eq_true in Hk.
    destruct (Hheld _ Hk) as (j & cj & Hj & Hcj & Hkj).
    by destruct (Hfree j cj Hj Hcj).
  - intros Hcrit. specialize (Hok i c Hi). unfold call_ok in Hok.
    rewrite Hcrit in Hok. destruct Hok as (k & h & -> & -> & _).
    destruct (phase c); try discriminate; [|by eexists..].
    by destruct (Planner_decide core h (user_input c)) as [rationale [call|text]|kind];
      eexists.
Qed.

(** On the model, a blank input ends in [Errored] with the store and the
    scopes untouched, and a pass whose Planner fails ends in [Errored]
    with no envelope. *)
Remark errors_end_without_envelope (sys : System) (persist_ok : bool) (c : Call) :
  (phase c = Received -> trim (user_input c) = EmptyString ->
   run_call core persist_ok c sys
   = Some (moved (Errored "InputError") c, store sys, held sys)) /\
  (forall k h kind,
     phase c = Planning -> conversation c = Some k -> loaded c = Some h ->
     Planner_decide core h (user_input c) = PlannerError kind ->
     exists c' st' held',
       run_call core persist_ok c sys = Some (c', st', held') /\
       phase c' = Errored kind).
Proof.
  unfold run_call. split.
  - intros -> ->. done.
  - intros k h kind -> -> -> ->. by do 3 eexists.
Qed.

(** C7: in every interleaving of calls of [plan], two calls on one
    conversation that both loaded its history are ordered, and the later
    one loaded a history that begins with what the earlier one loaded
    followed by the turn the earlier one appended; every appended turn is
    in the store; and a call waits only for a call on its own
    conversation. *)
Theorem turns_are_serialized (st : gmap string (list Turn)) (evs : list Event) :
  let sys := exec core (start st) evs in
  serialized sys /\ nothing_lost sys /\ unblocked core sys.
Proof.
  cbn zeta.
  pose proof (exec_invariant (start st) evs (start_invariant st)) as Hinv.
  split; [apply Hinv|].
  split; [by apply invariant_nothing_lost|by apply invariant_unblocked].
Qed.

End Core.
End OrchestratorFacts.

(** ** Instances *)

(** C2 fails as stated: a 2xx response whose body is not JSON makes [plan]
    raise. *)
Lemma plan_raises_on_ok_response :
  let result := fst (run (always (Return Sample.empty_body))
                       (plan Undefined (Str "merhaba") Null) []) in
  ok Sample.empty_body = true /\ raises result /\
  ~ (raises result <-> ok Sample.empty_body = false).
Proof.
  cbn zeta.
  assert (R : raises (fst (run (always (Return Sample.empty_body))
                             (plan Undefined (Str "merhaba") Null) [])))
    by (eexists; reflexivity).
  split; [reflexivity|]. split; [exact R|].
  intros [H _]. specialize (H R). discriminate H.
Qed.

Lemma plan_raises_or_returns_witness :
  fst (run (always (Return Sample.unavailable))
         (plan Undefined (Str "merhaba") (Str "srv-9")) [])
  = Throw {| name := "Error"; message := "planner unavailable" |}.
Proof.
  refine (proj1 (proj1 (proj2 (proj2
    (plan_raises_or_returns Undefined Sample.unavailable []
       (Str "merhaba") (Str "srv-9"))))
    [("error", Str "planner unavailable")] eq_refl eq_refl) _ eq_refl _).
  discriminate.
Defined.

Lemma returned_id_is_adopted_witness :
  let w := play Undefined (initial ∅) Sample.waiting in
  let w1 := settle 0 (Return Sample.success) w in
  convId (ui w1) = Str "srv-9" /\ localStorage w1 !! "conv_id" = Some "srv-9" /\
  exists new,
    requests (play Undefined w1 Sample.later) = requests w1 ++ new /\
    Forall (fun rq => header "X-Conversation-Id" rq = Some "srv-9") new.
Proof.
  eapply (returned_id_is_adopted Undefined ∅ Sample.waiting Sample.later 0 _
            (Return Sample.success) "srv-9").
  - reflexivity.
  - reflexivity.
  - discriminate.
  - cbn. discriminate.
  - reflexivity.
Defined.

Lemma blank_input_is_ignored_witness :
  trim (input (ui Sample.blank)) = EmptyString /\
  askPlan Undefined Sample.blank = Sample.blank /\
  step Undefined Sample.blank SendClicked = Sample.blank.
Proof.
  split; [reflexivity|].
  apply (blank_input_is_ignored Undefined Sample.blank). reflexivity.
Defined.

Lemma requests_carry_trimmed_input_witness :
  exists typed,
    rq_body (plan_post (Str "http://localhost:8000") "son 7 gün" "6f1c2e0a-client")
    = Some (Obj [("user_input", Str (trim typed))]) /\
    ~ leading_space (trim typed) /\ ~ trailing_space (trim typed).
Proof.
  apply (proj1 (requests_carry_trimmed_input Undefined ∅ Sample.waiting)).
  vm_compute. constructor.
Defined.

Lemma memory_and_storage_agree_witness :
  forallb string_id Sample.session = true /\
  agree (play Undefined (initial ∅) (Mounted Sample.entropy :: Sample.session)).
Proof.
  split; [reflexivity|].
  apply (memory_and_storage_agree Undefined ∅ Sample.entropy Sample.session).
  reflexivity.
Defined.





Lemma turns_are_serialized_witness :
  let sys := Orchestrator.exec Orchestrator.sample_core
               (Orchestrator.start Orchestrator.sample_store)
               Orchestrator.sample_events in
  exists c0 c1 h0 h1,
    Orchestrator.calls sys !! 0 = Some c0 /\ Orchestrator.calls sys !! 1 = Some c1 /\
    Orchestrator.loaded c0 = Some h0 /\ Orchestrator.loaded c1 = Some h1 /\
    ((Orchestrator.finished (Orchestrator.phase c0) = true /\
      (h0 ++ Orchestrator.written c0) `prefix_of` h1) \/
     (Orchestrator.finished (Orchestrator.phase c1) = true /\
      (h1 ++ Orchestrator.written c1) `prefix_of` h0)).
Proof.
  do 4 eexists. do 4 (split; [reflexivity|]).
  apply (proj1 (OrchestratorFacts.turns_are_serialized Orchestrator.sample_core
                  Orchestrator.sample_store Orchestrator.sample_events)
           0 1 _ _ "c1"); [discriminate|reflexivity..].
Defined.

(** ** Further properties of the HTTP layer *)

Section MoreApi.

Variable VITE_API_BASE : Val.


(** X2: on a response outside 2xx whose body parses to [null], [plan]
    raises a [TypeError], from reading [data.error], and not the [Error] it
    builds; on one whose body parses to a string, a number, a boolean or an
    array, it raises [Error] with the status text as its message. *)
Theorem plan_error_without_object_body (res : Response) (data : Val)
    (log : list Request) (user_input conversationId : Val) :
  ok res = false -> json res = Return data ->
  let result := fst (run (always (Return res))
                       (plan VITE_API_BASE user_input conversationId) log) in
  (nullish data = true ->
   exists e, result = Throw e /\ name e = "TypeError") /\
  (nullish data = false -> (forall fields, data <> Obj fields) ->
   result = Throw {| name := "Error"; message := statusText res |}).
Proof.
  intros Hok Hjson. cbn zeta.
  rewrite plan_result, plan_settled_response, Hjson, Hok.
  split.
  - destruct data; try discriminate; intros _; eexists; split; reflexivity.
  - intros Hn Hobj. destruct data; try discriminate; try reflexivity.
    by destruct (Hobj fields).
Qed.

End MoreApi.

(** ** Further properties of the page *)

Section MorePage.

Variable VITE_API_BASE : Val.

(** What the continuation of [askPlan] leaves in the state. *)
Lemma askPlan_settle_ui (c : Val) (r : Result Val) (w : World) :
  let w' := askPlan_settle c r w in
  busy (ui w') = false /\ input (ui w') = input (ui w) /\
  showDebug (ui w') = showDebug (ui w) /\
  requests w' = requests w /\ pending w' = pending w /\
  match r with
  | Return data =>
      if nullish data then
        exists e, name e = "TypeError" /\ message e <> EmptyString /\
                  err (ui w') = message e /\ res (ui w') = res (ui w) /\
                  convId (ui w') = convId (ui w) /\ localStorage w' = localStorage w
      else res (ui w') = data /\ err (ui w') = err (ui w)
  | Throw e =>
      err (ui w') = errorText e /\ res (ui w') = res (ui w) /\
      convId (ui w') = convId (ui w) /\ localStorage w' = localStorage w
  end.
Proof.
  unfold askPlan_settle. destruct r as [data|e]; cbn; [|done].
  destruct (nullish data) eqn:Hn.
  - destruct data; try discriminate; cbn;
      (do 5 (split; [done|]);
       match goal with |- context [errorText ?x] => exists x end;
       split; [done|];
       split; [intros Hm; vm_compute in Hm; discriminate Hm|done]).
  - destruct (get data "conversation_id") as [id|e] eqn:Hid;
      [|by destruct data]. cbn.
    by destruct (truthy id && negb (strict_eq id c)).
Qed.

Lemma settle_only (s : Suspended) (o : Result Response) (w : World) :
  well_formed w -> pending w = [s] ->
  settle 0 o w
  = askPlan_settle (captured s) (plan_settled o)
      {| ui := ui w; localStorage := localStorage w;
         requests := requests w; pending := [] |}.
Proof.
  intros Hwf Hp. unfold settle. rewrite Hp. cbn.
  unfold well_formed in Hwf. rewrite Hp in Hwf.
  rewrite Forall_singleton in Hwf. by rewrite (Hwf o).
Qed.

Lemma step_page_invariant (w : World) (ev : Event) :
  well_formed w -> single_flight w -> one_outcome w ->
  single_flight (step VITE_API_BASE w ev) /\ one_outcome (step VITE_API_BASE w ev).
Proof.
  intros Hwf Hsf Hone. unfold single_flight, one_outcome in *.
  destruct ev as [e|v|b| |e| |i o]; cbn [step].
  - unfold mountEffect. destruct (negb _); (split; [exact Hsf|exact Hone]).
  - split; [exact Hsf|exact Hone].
  - split; [exact Hsf|exact Hone].
  - destruct (busy (ui w)) eqn:Hb; [rewrite Hb; split; [exact Hsf|exact Hone]|].
    destruct (decide (trim (input (ui w)) = EmptyString)) as [E|E].
    + rewrite askPlan_blank by done. rewrite Hb. split; [exact Hsf|exact Hone].
    + destruct (askPlan_sends VITE_API_BASE w E) as (k & Hk & ->). cbn.
      split; [|done]. rewrite Hsf. eexists _, _, _. repeat split.
  - cbn. split; [|done]. destruct (busy (ui w)); [|done].
    destruct Hsf as (s & earlier & rq & ? & ? & ? & ? & ?). by exists s, earlier, rq.
  - cbn. split; [|done]. destruct (busy (ui w)); [|done].
    destruct Hsf as (s & earlier & rq & ? & ? & ? & ? & ?). by exists s, earlier, rq.
  - destruct (busy (ui w)) eqn:Hb.
    + destruct Hsf as (s & earlier & rq & Hp & Hr & Hh & Hres & Herr).
      destruct i as [|i].
      * rewrite (settle_only s o w Hwf Hp).
        match goal with |- context [askPlan_settle ?c ?r ?w0] =>
          pose proof (askPlan_settle_ui c r w0) as H end.
        cbv zeta in H. destruct H as (Hbusy & _ & _ & _ & Hpend & H).
        rewrite Hbusy, Hpend. split; [done|].
        destruct (plan_settled o) as [data|e].
        -- destruct (nullish data).
           ++ destruct H as (e & _ & _ & _ & Hr' & _). by rewrite Hr'.
           ++ destruct H as (_ & He'). by rewrite He'.
        -- destruct H as (_ & Hr' & _). by rewrite Hr'.
      * assert (settle (S i) o w = w) as -> by (unfold settle; by rewrite Hp).
        rewrite Hb. split; [by exists s, earlier, rq|done].
    + assert (settle i o w = w) as -> by (unfold settle; by rewrite Hsf).
      rewrite Hb. by split.
Qed.

Lemma play_page_invariant (w : World) (evs : list Event) :
  well_formed w -> single_flight w -> one_outcome w ->
  single_flight (play VITE_API_BASE w evs) /\ one_outcome (play VITE_API_BASE w evs).
Proof.
  revert w. induction evs as [|ev evs IH]; intros w Hwf Hsf Hone; [done|].
  destruct (step_page_invariant w ev Hwf Hsf Hone) as [Hsf' Hone'].
  apply IH; [|done..]. by apply step_requests.
Qed.

Lemma initial_page_invariant (ls : gmap string string) :
  single_flight (initial ls) /\ one_outcome (initial ls).
Proof. split; [done|]. by intros []. Qed.

(** X3: whatever happens to the page, one call of [plan] is awaited while
    [busy] is set and none while it is not: the send button, disabled by
    [busy], never has two calls in flight. *)
Theorem one_call_in_flight (ls : gmap string string) (evs : list Event) :
  let w := play VITE_API_BASE (initial ls) evs in
  length (pending w) = if busy (ui w) then 1 else 0.
Proof.
  cbn zeta.
  destruct (initial_page_invariant ls) as [Hsf Hone].
  destruct (play_page_invariant _ evs (initial_well_formed ls) Hsf Hone) as [H _].
  unfold single_flight in H. destruct (busy (ui _)); [|by rewrite H].
  by destruct H as (s & earlier & rq & -> & _).
Qed.

(** X4: the pending call is the one the last request was sent for, and the
    [convId] its handler compares the returned identifier with is the one
    that request carries in [X-Conversation-Id] (empty for [null]). *)
Theorem compared_id_is_sent_id (ls : gmap string string) (evs : list Event)
    (s : Suspended) :
  let w := play VITE_API_BASE (initial ls) evs in
  s ∈ pending w ->
  exists earlier rq,
    requests w = earlier ++ [rq] /\
    header "X-Conversation-Id" rq
    = Some (ToString (or (captured s) (Str EmptyString))).
Proof.
  cbn zeta. intros Hin.
  destruct (initial_page_invariant ls) as [Hsf Hone].
  destruct (play_page_invariant _ evs (initial_well_formed ls) Hsf Hone) as [H _].
  unfold single_flight in H. destruct (busy (ui _)).
  - destruct H as (s' & earlier & rq & Hp & Hr & Hh & _).
    rewrite Hp in Hin. apply list_elem_of_singleton in Hin as ->. eauto.
  - rewrite H in Hin. by apply elem_of_nil in Hin.
Qed.

(** X5: whatever happens to the page, an error is in the state only with
    no result, and while a call is awaited there is neither a result nor an
    error. *)
Theorem page_shows_one_outcome (ls : gmap string string) (evs : list Event) :
  let w := play VITE_API_BASE (initial ls) evs in
  (err (ui w) <> EmptyString -> res (ui w) = Null) /\
  (busy (ui w) = true -> res (ui w) = Null /\ err (ui w) = EmptyString).
Proof.
  cbn zeta.
  destruct (initial_page_invariant ls) as [Hsf Hone].
  destruct (play_page_invariant _ evs (initial_well_formed ls) Hsf Hone) as [H H'].
  split; [exact H'|]. intros Hb. unfold single_flight in H. rewrite Hb in H.
  by destruct H as (s & earlier & rq & _ & _ & _ & ? & ?).
Qed.

Lemma step_sends (w : World) (ev : Event) :
  well_formed w ->
  requests (step VITE_API_BASE w ev) = requests w \/
  (trim (input (ui w)) <> EmptyString /\
   requests (step VITE_API_BASE w ev)
   = requests w ++ [plan_post (API_BASE VITE_API_BASE) (trim (input (ui w)))
                      (ToString (or (convId (ui w)) (Str EmptyString)))]).
Proof.
  intros Hwf. destruct ev as [e|v|b| |e| |i o]; cbn [step]; try by left.
  - left. unfold mountEffect. by destruct (negb _).
  - destruct (busy (ui w)); [by left|].
    destruct (decide (trim (input (ui w)) = EmptyString)) as [E|E].
    + left. by rewrite askPlan_blank.
    + right. split; [done|]. by destruct (askPlan_sends VITE_API_BASE w E) as (k & _ & ->).
  - left. pose proof (settle_effect i o w Hwf) as H. cbv zeta in H. apply H.
Qed.

(** X6: every request the page sends is a [POST] to [API_BASE + "/plan"]
    with [Content-Type: application/json] and a body that holds one field,
    [user_input], a non-empty string; the page calls none of
    [listConversations], [getConversation] and [deleteConversation]. *)
Theorem page_sends_only_plan_posts (ls : gmap string string) (evs : list Event)
    (rq : Request) :
  rq ∈ requests (play VITE_API_BASE (initial ls) evs) ->
  plan_request (API_BASE VITE_API_BASE) rq.
Proof.
  assert (Hall : forall evs w, well_formed w ->
            Forall (plan_request (API_BASE VITE_API_BASE)) (requests w) ->
            Forall (plan_request (API_BASE VITE_API_BASE))
              (requests (play VITE_API_BASE w evs))).
  { clear. induction evs as [|ev evs IH]; intros w Hwf Hrq; [done|].
    cbn. apply IH; [by apply step_requests|].
    destruct (step_sends w ev Hwf) as [->|[Hne ->]]; [done|].
    apply Forall_app. split; [done|]. apply Forall_singleton.
    repeat split. by exists (trim (input (ui w))). }
  intros Hin.
  pose proof (Hall evs (initial ls) (initial_well_formed ls)
                (proj2 (Forall_nil _) I)) as H.
  rewrite Forall_forall in H. by apply H.
Qed.

Lemma errorText_Error (v : Val) : errorText (Error v) <> EmptyString.
Proof. unfold errorText. cbn. by destruct (match v with Undefined => _ | _ => _ end). Qed.

(** The page while a call is awaited: the step that settles the call. *)
Lemma settle_busy (ls : gmap string string) (evs : list Event) (o : Result Response) :
  let w := play VITE_API_BASE (initial ls) evs in
  busy (ui w) = true ->
  res (ui w) = Null /\ err (ui w) = EmptyString /\
  exists s,
    step VITE_API_BASE w (Settled 0 o)
    = askPlan_settle (captured s) (plan_settled o)
        {| ui := ui w; localStorage := localStorage w;
           requests := requests w; pending := [] |}.
Proof.
  cbn zeta. intros Hb.
  destruct (initial_page_invariant ls) as [Hsf Hone].
  destruct (play_page_invariant _ evs (initial_well_formed ls) Hsf Hone) as [H _].
  unfold single_flight in H. rewrite Hb in H.
  destruct H as (s & earlier & rq & Hp & _ & _ & Hres & Herr).
  split; [done|]. split; [done|]. exists s. cbn [step].
  apply settle_only; [|done]. apply play_well_formed, initial_well_formed.
Qed.

(** X7: when the awaited call of [plan] rejects with [e], the page stops
    being busy and shows [String(e.message || e)] with no result; the
    conversation identifier stays as it is, in memory and in storage. *)
Theorem failed_call_shows_error (ls : gmap string string) (evs : list Event)
    (o : Result Response) (e : Exn) :
  let w := play VITE_API_BASE (initial ls) evs in
  busy (ui w) = true -> plan_settled o = Throw e ->
  let w' := step VITE_API_BASE w (Settled 0 o) in
  busy (ui w') = false /\ pending w' = [] /\
  err (ui w') = errorText e /\ res (ui w') = Null /\
  convId (ui w') = convId (ui w) /\ localStorage w' = localStorage w.
Proof.
  intros w Hb Ho w'. subst w w'.
  destruct (settle_busy ls evs o Hb) as (Hres & _ & s & ->).
  match goal with |- context [askPlan_settle ?c ?r ?w0] =>
    pose proof (askPlan_settle_ui c r w0) as H end.
  cbv zeta in H. rewrite Ho in H.
  destruct H as (? & _ & _ & _ & ? & ? & Hr & ? & ?).
  rewrite Ho. repeat split; done.
Qed.


(** X9: a response outside 2xx whose body is a JSON object always leaves a
    non-empty error text on the page, and no result; with no [error] field
    and an empty status text the text shown is ["Error"]. *)
Theorem error_response_is_visible (ls : gmap string string) (evs : list Event)
    (r : Response) (fields : list (string * Val)) :
  let w := play VITE_API_BASE (initial ls) evs in
  busy (ui w) = true -> ok r = false -> json r = Return (Obj fields) ->
  let w' := step VITE_API_BASE w (Settled 0 (Return r)) in
  err (ui w') <> EmptyString /\ res (ui w') = Null /\
  (truthy (field "error" fields) = false -> statusText r = EmptyString ->
   err (ui w') = "Error").
Proof.
  intros w Hb Hok Hjson w'. subst w w'.
  destruct (settle_busy ls evs (Return r) Hb) as (Hres & _ & s & ->).
  match goal with |- context [askPlan_settle ?c ?r ?w0] =>
    pose proof (askPlan_settle_ui c r w0) as H end.
  cbv zeta in H.
  assert (Hps : plan_settled (Return r)
                = Throw (Error (or (field "error" fields) (Str (statusText r)))))
    by (by rewrite plan_settled_response, Hjson, Hok).
  rewrite Hps in H |- *.
  destruct H as (_ & _ & _ & _ & _ & He & Hr & _).
  split; [rewrite He; apply errorText_Error|]. split; [by rewrite Hr|].
  intros Hf Hs. rewrite He. unfold or. by rewrite Hf, Hs.
Qed.

(** X10: when the server returns the identifier the call was sent with,
    the handler writes nothing: the identifier in memory and the storage
    stay as they are, even if a reset happened meanwhile. *)
Theorem echoed_id_changes_nothing (ls : gmap string string) (evs : list Event)
    (i : nat) (s : Suspended) (o : Result Response) (x : string) :
  let w := play VITE_API_BASE (initial ls) evs in
  pending w !! i = Some s -> captured s = Str x -> returned_id o = Str x ->
  let w' := step VITE_API_BASE w (Settled i o) in
  convId (ui w') = convId (ui w) /\ localStorage w' = localStorage w.
Proof.
  intros w Hi Hc Ho w'. subst w w'. cbn [step].
  pose proof (settle_effect i o _
                (play_well_formed VITE_API_BASE _ evs (initial_well_formed ls))) as H.
  cbv zeta in H. destruct H as (_ & _ & H). rewrite Hi, Ho, Hc in H.
  replace (strict_eq (Str x) (Str x)) with true in H
    by (symmetry; by apply strict_eq_Str).
  rewrite andb_false_r in H. by injection H as -> ->.
Qed.

Lemma mountEffect_agree_as_text (e : Entropy) (w : World) :
  agree_as_text (mountEffect e w).
Proof.
  unfold mountEffect, getItem, agree_as_text.
  destruct (localStorage w !! "conv_id") as [[|a v]|] eqn:E; cbn; [|done|];
    destruct (freshId_string e) as [id ->]; cbn; apply lookup_insert_eq.
Qed.

Lemma play_agree_as_text (w : World) (evs : list Event) :
  well_formed w -> agree_as_text w -> agree_as_text (play VITE_API_BASE w evs).
Proof.
  revert w. induction evs as [|ev evs IH]; intros w Hwf Hag; [done|].
  cbn. apply IH; [by apply step_requests|by apply step_agree_as_text].
Qed.

(** X11: a page loaded again over the storage a mounted page leaves behind
    starts with the same conversation identifier and leaves the storage
    alone; after [newConversation], which leaves none, it draws a fresh
    identifier and stores it. *)
Theorem id_survives_reload (ls : gmap string string) (e e' : Entropy)
    (evs : list Event) :
  let w := play VITE_API_BASE (initial ls) (Mounted e :: evs) in
  (forall x, convId (ui w) = Str x -> x <> EmptyString ->
     convId (ui (reload e' w)) = Str x /\
     localStorage (reload e' w) = localStorage w) /\
  (convId (ui w) = Null ->
     convId (ui (reload e' w)) = freshId e' /\
     localStorage (reload e' w) = setItem "conv_id" (freshId e') (localStorage w)).
Proof.
  cbn zeta.
  change (play VITE_API_BASE (initial ls) (Mounted e :: evs))
    with (play VITE_API_BASE (mountEffect e (initial ls)) evs).
  assert (Hag : agree_as_text (play VITE_API_BASE (mountEffect e (initial ls)) evs)).
  { apply play_agree_as_text; [|apply mountEffect_agree_as_text].
    unfold mountEffect. destruct (negb _); exact (initial_well_formed ls). }
  revert Hag. generalize (play VITE_API_BASE (mountEffect e (initial ls)) evs).
  intros w Hag. unfold agree_as_text in Hag. unfold reload, mountEffect, getItem.
  split.
  - intros x Hx Hne. rewrite Hx in Hag. cbn in Hag. cbn. rewrite Hag.
    by destruct x.
  - intros Hn. rewrite Hn in Hag. cbn. by rewrite Hag.
Qed.

Lemma setConvId_same (v : Val) (w : World) :
  convId (ui w) = v -> with_ui (setConvId v) w = w.
Proof. destruct w as [[]]. cbn. by intros ->. Qed.

(** X12: the mount effect is idempotent: run a second time, as React's
    strict mode does, it changes nothing, given that the first run left a
    truthy identifier (the fallback [Math.random().toString(36).slice(2)]
    can be empty). *)
Theorem mount_effect_runs_twice_safely (e e' : Entropy) (w : World) :
  truthy (convId (ui (mountEffect e w))) = true ->
  mountEffect e' (mountEffect e w) = mountEffect e w.
Proof.
  intros Ht. pose proof (mountEffect_agree e w) as Hag.
  set (w1 := mountEffect e w) in *. unfold agree in Hag.
  destruct (convId (ui w1)) as [| | | |[|a x]| |] eqn:Hc; try done.
  unfold mountEffect, getItem. rewrite Hag. cbn.
  by apply setConvId_same.
Qed.

(** X13: after a click on the reset button, the next send carries the fresh
    identifier in [X-Conversation-Id], with the trimmed input, and that
    identifier is the one stored under [conv_id]. *)
Theorem reset_then_send (e : Entropy) (w : World) :
  busy (ui w) = false -> trim (input (ui w)) <> EmptyString ->
  let w' := play VITE_API_BASE w [ResetClicked e; SendClicked] in
  requests w'
  = requests w ++ [plan_post (API_BASE VITE_API_BASE) (trim (input (ui w)))
                     (ToString (freshId e))] /\
  localStorage w' !! "conv_id" = Some (ToString (freshId e)) /\
  convId (ui w') = freshId e.
Proof.
  intros Hb Hne. cbn. unfold resetConversation at 1. cbn. rewrite Hb.
  destruct (askPlan_sends VITE_API_BASE (resetConversation e w)) as (k & _ & ->);
    [done|]. cbn.
  destruct (freshId_string e) as [id ->]. cbn.
  repeat split; [by rewrite or_string_empty|apply lookup_insert_eq].
Qed.

(** X14: [newConversation] empties the input, so a send right after it does
    nothing; once a request is typed, the send carries an empty
    [X-Conversation-Id] and nothing is stored under [conv_id]. *)
Theorem new_conversation_then_send (w : World) (v : string) :
  step VITE_API_BASE (newConversation w) SendClicked = newConversation w /\
  (busy (ui w) = false -> trim v <> EmptyString ->
   let w' := play VITE_API_BASE w [NewConversation; Typed v; SendClicked] in
   requests w'
   = requests w ++ [plan_post (API_BASE VITE_API_BASE) (trim v) EmptyString] /\
   localStorage w' !! "conv_id" = None).
Proof.
  split.
  - cbn. by destruct (busy (ui w)).
  - intros Hb Hne. cbn. rewrite Hb.
    destruct (askPlan_sends VITE_API_BASE
                (with_ui (setInput v) (newConversation w))) as (k & _ & ->);
      [done|]. cbn.
    split; [done|apply lookup_delete_eq].
Qed.


End MorePage.

(** ** Further properties of what the page shows *)

Section MoreRender.

Variable Date_toLocaleString : Val -> string.
Variable JSON_pretty : Val -> Val.

Lemma get_not_nullish (v : Val) (k : string) :
  nullish v = false -> get v k = Return (prop v k).
Proof. unfold prop. by destruct v. Qed.

Lemma truthy_not_nullish (v : Val) : truthy v = true -> nullish v = false.
Proof. by destruct v. Qed.

Lemma not_raises_Return {A : Type} (a : A) : ~ raises (Return a).
Proof. by intros [e He]. Qed.

Lemma mapM_raises {A B : Type} (f : A -> Result B) (l : list A) :
  raises (mapM f l) <-> Exists (fun x => raises (f x)) l.
Proof.
  induction l as [|x l IH]; cbn.
  - split; [intros [e He]; discriminate|by intros H%Exists_nil].
  - rewrite Exists_cons, <- IH. destruct (f x) as [y|e]; cbn.
    + destruct (mapM f l) as [ys|e]; cbn.
      * split; [intros [e He]; discriminate|].
        intros [[e He]|[e He]]; discriminate.
      * split; [right|]; by eexists.
    + split; [left|]; by eexists.
Qed.

Lemma mapM_fmap {A B : Type} (f : A -> Result B) (g : A -> B) (l : list A) :
  Forall (fun x => f x = Return (g x)) l -> mapM f l = Return (g <$> l).
Proof.
  induction 1 as [|x l Hx _ IH]; cbn; [done|]. by rewrite Hx, IH.
Qed.

(** An item of [EmailsList], for an e-mail whose properties can be read. *)
Lemma EmailsList_shape (emails : list Val) :
  (raises (EmailsList emails) <-> Exists (fun m => nullish m = true) emails) /\
  (Forall (fun m => nullish m = false) emails ->
   EmailsList emails =
   Return
     (match emails with
      | [] => Elem "div" [className "muted"] [Text "Sonuç yok."]
      | _ =>
          Elem "ul" [className "list"]
            ((fun m =>
                Elem "li" [("key", prop m "id"); className "item"]
                  [ Elem "div" [className "item-title"]
                      [Expr (or (prop m "subject") (Str "(no subject)"))];
                    Elem "div" [className "item-sub"]
                      [ Expr (or (prop m "from") (Str "unknown")); Text " • ";
                        Expr (or (prop m "date") (Str EmptyString)) ];
                    when (prop m "snippet")
                      (Elem "div" [className "item-snippet"]
                         [Expr (prop m "snippet")]) ]) <$> emails)
      end)).
Proof.
  unfold EmailsList. destruct emails as [|m0 emails].
  { cbn. split; [|done]. split; [by intros H%not_raises_Return|by intros H%Exists_nil]. }
  set (l := m0 :: emails).
  replace (negb (truthy (Num (Z.of_nat (length l))))) with false
    by (cbn; by destruct (length emails)).
  match goal with |- context [mapM ?f l] => set (g := f) end.
  assert (Hg1 : forall m, nullish m = true -> raises (g m)).
  { intros m Hm. subst g. cbn. destruct m; try discriminate; by eexists. }
  assert (Hg2 : forall m, nullish m = false -> exists li, g m = Return li).
  { intros m Hm. subst g. cbn. rewrite !get_not_nullish by done. by eexists. }
  split.
  - split.
    + intros Hr. assert (raises (mapM g l)) as Hm.
      { destruct (mapM g l); [by apply not_raises_Return in Hr|by eexists]. }
      apply mapM_raises in Hm. eapply Exists_impl; [exact Hm|].
      intros m Hgm. destruct (nullish m) eqn:E; [done|].
      destruct (Hg2 m E) as [li Hli]. destruct Hgm as [e He]. congruence.
    + intros He. assert (raises (mapM g l)) as [e Hm].
      { apply mapM_raises. eapply Exists_impl; [exact He|]. apply Hg1. }
      rewrite Hm. by eexists.
  - intros Hall. erewrite mapM_fmap; [reflexivity|].
    eapply Forall_impl; [exact Hall|]. intros m Hm. subst g. cbn.
    by rewrite !get_not_nullish.
Qed.


Lemma SlotsTable_shape (slots : list Val) :
  (raises (SlotsTable Date_toLocaleString slots)
   <-> Exists (fun s => nullish s = true) slots) /\
  (Forall (fun s => nullish s = false) slots ->
   SlotsTable Date_toLocaleString slots =
   Return
     (match slots with
      | [] => Elem "div" [className "muted"] [Text "Uygun blok bulunamadı."]
      | _ =>
          Elem "div" [className "grid"]
            (imap (fun i s =>
                     Elem "div" [("key", Num (Z.of_nat i)); className "chip"]
                       [ Elem "span" []
                           [Expr (Str (Date_toLocaleString (prop s "start")))];
                         Elem "span" [] [Text " → "];
                         Elem "span" []
                           [Expr (Str (Date_toLocaleString (prop s "end")))] ])
               slots)
      end)).
Proof.
  unfold SlotsTable. destruct slots as [|s0 slots].
  { cbn. split; [|done]. split; [by intros H%not_raises_Return|by intros H%Exists_nil]. }
  set (l := s0 :: slots).
  replace (negb (truthy (Num (Z.of_nat (length l))))) with false
    by (cbn; by destruct (length slots)).
  match goal with |- context [mapM ?f _] => set (g := f) end.
  assert (Hg1 : forall i s, nullish s = true -> raises (g (i, s))).
  { intros i s Hs. subst g. cbn. destruct s; try discriminate; by eexists. }
  assert (Hg2 : forall i s, nullish s = false -> exists chip, g (i, s) = Return chip).
  { intros i s Hs. subst g. cbn. rewrite !get_not_nullish by done. by eexists. }
  split.
  - split.
    + intros Hr. assert (raises (mapM g (imap (fun i s => (i, s)) l))) as Hm.
      { destruct (mapM g _); [by apply not_raises_Return in Hr|by eexists]. }
      apply mapM_raises, Exists_exists in Hm as ([i s] & Hin & Hgs).
      apply elem_of_lookup_imap_1 in Hin as (j & y & [= -> ->] & Hj).
      apply Exists_exists. exists y. split; [by eapply list_elem_of_lookup_2|].
      destruct (nullish y) eqn:E; [done|].
      destruct (Hg2 j y E) as [chip Hc]. destruct Hgs as [e He]. congruence.
    + intros He. apply Exists_exists in He as (s & Hin & Hs).
      apply list_elem_of_lookup_1 in Hin as [i Hi].
      assert (raises (mapM g (imap (fun i s => (i, s)) l))) as [e Hm].
      { apply mapM_raises, Exists_exists. exists (i, s).
        split; [by apply (elem_of_lookup_imap_2 (fun i s => (i, s)))|by apply Hg1]. }
      rewrite Hm. by eexists.
  - intros Hall.
    rewrite (mapM_fmap g
               (fun p : nat * Val =>
                  Elem "div" [("key", Num (Z.of_nat (fst p))); className "chip"]
                    [ Elem "span" []
                        [Expr (Str (Date_toLocaleString (prop (snd p) "start")))];
                      Elem "span" [] [Text " → "];
                      Elem "span" []
                        [Expr (Str (Date_toLocaleString (prop (snd p) "end")))] ])).
    + cbn [mbind result_bind mret result_ret]. rewrite fmap_imap. reflexivity.
    + apply Forall_forall. intros [i s] Hin.
      apply elem_of_lookup_imap_1 in Hin as (j & y & [= -> ->] & Hj).
      rewrite Forall_forall in Hall. subst g. cbn.
      rewrite !get_not_nullish by (apply Hall; by eapply list_elem_of_lookup_2).
      reflexivity.
Qed.

Lemma flat_map_imap {A B C : Type} (f : nat -> A -> B) (g : B -> list C)
    (h : A -> list C) (l : list A) :
  (forall i x, g (f i x) = h x) -> flat_map g (imap f l) = flat_map h l.
Proof.
  revert f. induction l as [|x l IH]; intros f Hf; [done|].
  rewrite imap_cons. cbn. rewrite Hf, IH; [done|]. intros i y. apply Hf.
Qed.


Lemma EventCard_shape (created : Val) :
  EventCard Date_toLocaleString created =
  Return
    (if truthy created then
       Elem "div" [className "event-card"]
         [ Elem "div" [className "item-title"]
             [Expr (or (prop created "summary") (Str "Etkinlik"))];
           Elem "div" [className "item-sub"]
             [ Expr (Str (Date_toLocaleString (prop created "start"))); Text " – ";
               Expr (Str (Date_toLocaleString (prop created "end"))) ];
           when (prop created "htmlLink")
             (Elem "a" [ className "link"; ("href", prop created "htmlLink");
                         ("target", Str "_blank"); ("rel", Str "noreferrer") ]
                [Text "Google Calendar’da aç"]) ]
     else Expr Null).
Proof.
  unfold EventCard. destruct (truthy created) eqn:Ht; [|done]. cbn [negb].
  by rewrite !get_not_nullish by by apply truthy_not_nullish.
Qed.


Lemma raises_Throw {A : Type} (e : Exn) : raises (@Throw A e).
Proof. by exists e. Qed.

Lemma emailsSection_raises (emails : Val) :
  raises (match emails with
          | Arr xs => ul ← EmailsList xs;
                      mret (Section_ "E-postalar (önemli)" [ul])
          | _ => mret (Expr (Bool false))
          end)
  <-> Exists (fun m => nullish m = true) (elements emails).
Proof.
  destruct emails as [| | | | |xs|]; cbn [elements];
    try (split; [by intros H%not_raises_Return|by intros H%Exists_nil]).
  rewrite <- (proj1 (EmailsList_shape xs)).
  destruct (EmailsList xs); cbn; [|split; intros; apply raises_Throw].
  split; by intros H%not_raises_Return.
Qed.

Lemma slotsSection_raises (slots : Val) :
  raises (match slots with
          | Arr xs => table ← SlotsTable Date_toLocaleString xs;
                      mret (Section_ "Uygun zaman blokları" [table])
          | _ => mret (Expr (Bool false))
          end)
  <-> Exists (fun m => nullish m = true) (elements slots).
Proof.
  destruct slots as [| | | | |xs|]; cbn [elements];
    try (split; [by intros H%not_raises_Return|by intros H%Exists_nil]).
  rewrite <- (proj1 (SlotsTable_shape xs)).
  destruct (SlotsTable Date_toLocaleString xs); cbn;
    [|split; intros; apply raises_Throw].
  split; by intros H%not_raises_Return.
Qed.

Lemma resultCard_raises (st : State) (emails slots created : Val) :
  raises (resultCard Date_toLocaleString JSON_pretty st emails slots created)
  <-> truthy (res st) = true /\
      Exists (fun x => nullish x = true) (elements emails ++ elements slots).
Proof.
  rewrite Exists_app, <- emailsSection_raises, <- slotsSection_raises.
  unfold resultCard.
  destruct (truthy (res st)) eqn:Hres; cbn [negb].
  2:{ split; [by intros H%not_raises_Return|by intros [? _]]. }
  rewrite !(get_prop (res st)) by done. cbn [mbind result_bind].
  lazymatch goal with |- raises (mbind ?f ?m) <-> _ =>
    destruct m as [e|] eqn:Ee end; cbn [mbind result_bind].
  2:{ split; [intros _; split; [done|left; apply raises_Throw]|intros _; apply raises_Throw]. }
  lazymatch goal with |- raises (mbind ?f ?m) <-> _ =>
    destruct m as [sl|] eqn:Es end; cbn [mbind result_bind].
  2:{ split; [intros _; split; [done|right; apply raises_Throw]|intros _; apply raises_Throw]. }
  rewrite EventCard_shape.
  assert (forall A (x : A), raises (Return x) <-> true = true /\
            (raises (Return e) \/ raises (Return sl))) as Hno.
  { intros A x. split; [by intros H%not_raises_Return|].
    by intros [_ [H%not_raises_Return|H%not_raises_Return]]. }
  destruct (truthy created), (showDebug st); cbn [mbind result_bind mret result_ret];
    apply Hno.
Qed.


Lemma EmailsList_messages (emails : list Val) (n : VNode) :
  EmailsList emails = Return n -> messages n = [].
Proof.
  unfold EmailsList, messages.
  destruct (negb _); [by intros [= <-]|].
  destruct (mapM _ emails) as [items|e] eqn:Hitems; cbn; [|discriminate].
  intros [= <-].
  assert (Hall : Forall (fun li => select (has_class "small mt") li = []) items).
  { eapply mapM_Return; [|exact Hitems]. clear Hitems items.
    intros m li. cbn.
    destruct (get m "id") as [id|]; cbn; [|discriminate].
    destruct (get m "subject") as [subject|]; cbn; [|discriminate].
    destruct (get m "from") as [from|]; cbn; [|discriminate].
    destruct (get m "date") as [date|]; cbn; [|discriminate].
    destruct (get m "snippet") as [snippet|]; cbn; [|discriminate].
    intros [= <-]. unfold when. by destruct (truthy snippet). }
  cbn. by rewrite (flat_map_nil _ _ Hall).
Qed.

Lemma SlotsTable_messages (slots : list Val) (n : VNode) :
  SlotsTable Date_toLocaleString slots = Return n -> messages n = [].
Proof.
  unfold SlotsTable, messages.
  destruct (negb _); [by intros [= <-]|].
  destruct (mapM _ _) as [chips|e] eqn:Hchips; cbn; [|discriminate].
  intros [= <-].
  assert (Hall : Forall (fun chip => select (has_class "small mt") chip = []) chips).
  { eapply mapM_Return; [|exact Hchips]. clear Hchips chips.
    intros [i sl] chip. cbn.
    destruct (get sl "start") as [start|]; cbn; [|discriminate].
    destruct (get sl "end") as [end_|]; cbn; [|discriminate].
    by intros [= <-]. }
  cbn. by rewrite (flat_map_nil _ _ Hall).
Qed.

Lemma resultCard_messages (st : State) (emails slots created : Val) (card : VNode) :
  resultCard Date_toLocaleString JSON_pretty st emails slots created = Return card ->
  messages card = [].
Proof.
  unfold resultCard.
  destruct (truthy (res st)) eqn:Hres; cbn [negb]; [|by intros [= <-]].
  rewrite !(get_prop (res st)) by done. cbn [mbind result_bind].
  lazymatch goal with |- mbind ?f ?m = _ -> _ =>
    destruct m as [e|] eqn:Ee; [|discriminate] end.
  cbn [mbind result_bind].
  lazymatch goal with |- mbind ?f ?m = _ -> _ =>
    destruct m as [sl|] eqn:Es; [|discriminate] end.
  cbn [mbind result_bind].
  rewrite EventCard_shape.
  lazymatch goal with |- mbind ?f ?m = _ -> _ =>
    destruct m as [c|] eqn:Ec; [|discriminate] end.
  cbn [mbind result_bind].
  lazymatch goal with |- mbind ?f ?m = _ -> _ =>
    destruct m as [d|] eqn:Ed; [|discriminate] end.
  cbn [mbind result_bind]. intros [= <-].
  assert (He : messages e = []).
  { destruct emails as [| | | | |xs|]; try (injection Ee as <-; reflexivity).
    destruct (EmailsList xs) as [ul|] eqn:Eul; [|discriminate].
    injection Ee as <-. unfold messages. cbn.
    fold (messages ul). by rewrite (EmailsList_messages xs ul Eul). }
  assert (Hs : messages sl = []).
  { destruct slots as [| | | | |xs|]; try (injection Es as <-; reflexivity).
    destruct (SlotsTable Date_toLocaleString xs) as [tb|] eqn:Etb; [|discriminate].
    injection Es as <-. unfold messages. cbn.
    fold (messages tb). by rewrite (SlotsTable_messages xs tb Etb). }
  assert (Hc : messages c = []).
  { destruct (truthy created); [|by injection Ec as <-].
    injection Ec as <-. unfold when.
    by destruct (truthy (prop created "htmlLink")). }
  assert (Hd : messages d = []).
  { destruct (showDebug st); [|by injection Ed as <-].
    injection Ed as <-. unfold when.
    by destruct (truthy (prop (res st) "tool_output")). }
  unfold messages in *. cbn [select flat_map].
  rewrite He, Hs, Hc, Hd. reflexivity.
Qed.

(** X20: of the two message lines of the page, the error line is there
    exactly when [err] is not empty, showing it after ["Hata: "], and the
    hint that no result is there yet exactly when [res] is falsy; the result
    card adds no line of that class. *)
Theorem page_messages (st : State) (tree : VNode) :
  App Date_toLocaleString JSON_pretty st = Return tree ->
  messages tree
  = (if bool_decide (err st = EmptyString) then [] else [error_line (err st)])
    ++ (if truthy (res st) then [] else [hint]).
Proof.
  unfold App. rewrite get_opt_prop. cbn [mbind result_bind].
  assert (Ht : truthy (or (prop (res st) "tool_output") (Obj [])) = true)
    by by apply or_truthy.
  rewrite !(get_prop _ _ Ht). cbn [mbind result_bind].
  destruct (resultCard _ _ _ _ _ _) as [card|] eqn:Hcard; [|discriminate].
  cbn [mbind result_bind]. intros [= <-].
  apply resultCard_messages in Hcard. unfold messages in *.
  unfold when. cbn [select flat_map]. rewrite Hcard.
  destruct (err st) as [|a s], (truthy (res st)); reflexivity.
Qed.

Lemma App_without_result (st : State) :
  res st = Null ->
  exists tree,
    App Date_toLocaleString JSON_pretty st = Return tree /\
    headings tree = [] /\
    messages tree
    = (if bool_decide (err st = EmptyString) then [] else [error_line (err st)])
      ++ [hint].
Proof.
  intros Hres. destruct st as [i b r e c d]. cbn in Hres. subst r.
  eexists. split; [reflexivity|]. split; [by destruct e|].
  by destruct e.
Qed.

End MoreRender.

Section MorePageRender.

Variable VITE_API_BASE : Val.
Variable Date_toLocaleString : Val -> string.
Variable JSON_pretty : Val -> Val.


End MorePageRender.

(** ** Further instances *)

Lemma plan_error_without_object_body_witness :
  (exists e,
     fst (run (always (Return Scenario.null_error))
            (plan Undefined (Str "merhaba") Null) []) = Throw e /\
     name e = "TypeError") /\
  fst (run (always (Return Scenario.bad_gateway))
         (plan Undefined (Str "merhaba") Null) [])
  = Throw {| name := "Error"; message := "Bad Gateway" |}.
Proof.
  split.
  - apply (proj1 (plan_error_without_object_body Undefined Scenario.null_error Null
                    [] (Str "merhaba") Null eq_refl eq_refl)).
    reflexivity.
  - apply (proj2 (plan_error_without_object_body Undefined Scenario.bad_gateway
                    (Str "upstream down") [] (Str "merhaba") Null eq_refl eq_refl)).
    + reflexivity.
    + discriminate.
Defined.

Lemma compared_id_is_sent_id_witness :
  let w := play Undefined (initial ∅) Sample.waiting in
  exists s,
    pending w = [s] /\ captured s = Str "6f1c2e0a-client" /\
    exists earlier rq,
      requests w = earlier ++ [rq] /\
      header "X-Conversation-Id" rq
      = Some (ToString (or (captured s) (Str EmptyString))).
Proof.
  eexists. split; [reflexivity|]. split; [reflexivity|].
  apply (compared_id_is_sent_id Undefined ∅ Sample.waiting).
  vm_compute. constructor.
Defined.

Lemma page_shows_one_outcome_witness :
  err (ui (play Undefined (initial ∅) Sample.session)) = "planner unavailable" /\
  res (ui (play Undefined (initial ∅) Sample.session)) = Null /\
  busy (ui (play Undefined (initial ∅) Sample.waiting)) = true /\
  res (ui (play Undefined (initial ∅) Sample.waiting)) = Null /\
  err (ui (play Undefined (initial ∅) Sample.waiting)) = EmptyString.
Proof.
  split; [reflexivity|]. split.
  - apply (proj1 (page_shows_one_outcome Undefined ∅ Sample.session)).
    vm_compute. discriminate.
  - split; [reflexivity|].
    apply (proj2 (page_shows_one_outcome Undefined ∅ Sample.waiting)).
    reflexivity.
Defined.

Lemma page_sends_only_plan_posts_witness :
  plan_request (API_BASE Undefined)
    (plan_post (Str "http://localhost:8000") "son 7 gün" "6f1c2e0a-client").
Proof.
  apply (page_sends_only_plan_posts Undefined ∅ Sample.waiting).
  vm_compute. constructor.
Defined.

Lemma failed_call_shows_error_witness :
  let w := play Undefined (initial ∅) Sample.waiting in
  let w' := step Undefined w (Settled 0 (Throw Scenario.offline)) in
  busy (ui w') = false /\ pending w' = [] /\
  err (ui w') = errorText Scenario.offline /\ res (ui w') = Null /\
  convId (ui w') = convId (ui w) /\ localStorage w' = localStorage w.
Proof.
  apply (failed_call_shows_error Undefined ∅ Sample.waiting
           (Throw Scenario.offline) Scenario.offline); reflexivity.
Defined.


Lemma error_response_is_visible_witness :
  let w := play Undefined (initial ∅) Sample.waiting in
  err (ui (step Undefined w (Settled 0 (Return Sample.unavailable)))) <> EmptyString /\
  err (ui (step Undefined w (Settled 0 (Return Scenario.silent_error)))) = "Error".
Proof.
  split.
  - refine (proj1 (error_response_is_visible Undefined ∅ Sample.waiting
                     Sample.unavailable [("error", Str "planner unavailable")]
                     _ _ _)); reflexivity.
  - refine (proj2 (proj2 (error_response_is_visible Undefined ∅ Sample.waiting
                            Scenario.silent_error [] _ _ _)) _ _); reflexivity.
Defined.

Lemma echoed_id_changes_nothing_witness :
  let w := play Undefined (initial ∅) Sample.waiting in
  let w' := step Undefined w (Settled 0 (Return Scenario.echo)) in
  convId (ui w') = convId (ui w) /\ localStorage w' = localStorage w.
Proof.
  eapply (echoed_id_changes_nothing Undefined ∅ Sample.waiting 0 _
            (Return Scenario.echo) "6f1c2e0a-client"); reflexivity.
Defined.

Lemma id_survives_reload_witness :
  let w := play Undefined (initial ∅) Scenario.typed in
  let v := play Undefined (initial ∅) (Mounted Sample.entropy :: Sample.session) in
  (convId (ui (reload Scenario.old_browser w)) = Str "6f1c2e0a-client" /\
   localStorage (reload Scenario.old_browser w) = localStorage w) /\
  (convId (ui (reload Scenario.old_browser v)) = Str "k3x9q" /\
   localStorage (reload Scenario.old_browser v)
   = setItem "conv_id" (Str "k3x9q") (localStorage v)).
Proof.
  split.
  - apply (proj1 (id_survives_reload Undefined ∅ Sample.entropy Scenario.old_browser
                    [Typed " son 7 gün "]) "6f1c2e0a-client").
    + reflexivity.
    + discriminate.
  - apply (proj2 (id_survives_reload Undefined ∅ Sample.entropy Scenario.old_browser
                    Sample.session)).
    reflexivity.
Defined.

Lemma mount_effect_runs_twice_safely_witness :
  mountEffect Scenario.old_browser (mountEffect Sample.entropy (initial ∅))
  = mountEffect Sample.entropy (initial ∅).
Proof.
  apply (mount_effect_runs_twice_safely Sample.entropy Scenario.old_browser (initial ∅)).
  reflexivity.
Defined.

Lemma reset_then_send_witness :
  let w := play Undefined (initial ∅) Scenario.typed in
  let w' := play Undefined w [ResetClicked Scenario.old_browser; SendClicked] in
  requests w'
  = requests w ++ [plan_post (API_BASE Undefined) (trim (input (ui w)))
                     (ToString (freshId Scenario.old_browser))] /\
  localStorage w' !! "conv_id" = Some (ToString (freshId Scenario.old_browser)) /\
  convId (ui w') = freshId Scenario.old_browser.
Proof.
  apply (reset_then_send Undefined Scenario.old_browser
           (play Undefined (initial ∅) Scenario.typed)).
  - reflexivity.
  - vm_compute. discriminate.
Defined.

Lemma new_conversation_then_send_witness :
  let w := play Undefined (initial ∅) Scenario.typed in
  let w' := play Undefined w [NewConversation; Typed "merhaba"; SendClicked] in
  requests w' = requests w ++ [plan_post (API_BASE Undefined) (trim "merhaba") EmptyString] /\
  localStorage w' !! "conv_id" = None.
Proof.
  apply (proj2 (new_conversation_then_send Undefined
                  (play Undefined (initial ∅) Scenario.typed) "merhaba")).
  - reflexivity.
  - vm_compute. discriminate.
Defined.






Lemma page_messages_witness :
  exists tree,
    App Sample.localeString Sample.pretty (Sample.showing Sample.envelope) = Return tree /\
    messages tree = [].
Proof.
  eexists. split; [reflexivity|].
  apply (page_messages Sample.localeString Sample.pretty
           (Sample.showing Sample.envelope)).
  reflexivity.
Defined.

